(** * Udemy course monitor: the production agent's poll cycle

    A shallow embedding of [udemy_agent_production.py]
    (class [ProductionUdemyAgent]) together with the parts of
    [email_notifier.py] and [selenium_scraper.py] it relies on, and the
    properties of the poll cycle, the seen-set store, pruning and the
    failure counters that the specification states about them; then the
    methods around the cycle ([stop], the health monitor, the scheduler),
    the course dicts built by the scraper, and what the code shows about
    them. *)

From stdpp Require Import gmap strings list fin_maps.
From Stdlib Require Import ZArith Lia Ascii.

Local Open Scope Z_scope.

(** ** Data model *)

(** One listing returned by the scraper: the dict built by
    [_extract_course_data]; the agent reads the keys ['id'], ['title'] and
    ['url'] only. *)
Record course := Course {
  course_id : string;
  course_title : string;
  course_url : string
}.

(** The JSON value found under a timestamp key of a stored entry, classified
    by what [_cleanup_old_courses] does with it on the line
    [datetime.fromisoformat(last_seen.replace('Z', '+00:00'))] and on the
    comparison with the offset-free [cutoff_date] that follows.  Instants are
    microseconds on the local clock. *)
Inductive jtime :=
  | TNaive (t : Z)   (* ISO string without UTC offset, as [isoformat()] of [datetime.now()] *)
  | TAware (t : Z)   (* ISO string with a UTC offset or a trailing [Z]: parses to an offset-aware datetime *)
  | TGarbage         (* non-empty string [fromisoformat] rejects: ValueError *)
  | TFalsy           (* null, empty string, 0, false: [if last_seen:] fails *)
  | TOther.          (* truthy value that is not a string: no [replace] method *)

(** The JSON value found under ['seen_count']: an integer, or a value [v]
    for which [v + 1] raises TypeError (string, null, list, object). *)
Inductive jcount :=
  | CInt (n : Z)
  | CBad.

(** A metadata dict of the seen-set; every key may be missing in a file
    that was not written by this program. *)
Record metadata := Metadata {
  title : option string;
  url : option string;
  first_seen : option jtime;
  last_seen : option jtime;
  seen_count : option jcount
}.

(** The empty dict [{}]. *)
Definition empty_dict : metadata := Metadata None None None None None.

(** A value of the [seen_courses] dict: a metadata dict, or any other JSON
    value ([isinstance(existing_course_data, dict)] is false). *)
Inductive stored :=
  | Meta (m : metadata)
  | NotDict.

Inductive status_t := Starting | Healthy | Degraded | Error | Stopped.

Record health := Health {
  status : status_t;
  last_check : option Z;
  courses_found : Z;
  emails_sent : Z;
  errors : Z;
  start_time : Z;
  pid : Z
}.

(** Python exceptions that occur in the modelled code. *)
Inductive exn :=
  | TypeError          (* [v + 1] on a non-number *)
  | AttributeError     (* [.get] on a non-dict, [.quit] on None *)
  | JSONDecodeError
  | ValueError         (* [fromisoformat] on a malformed string *)
  | OSError            (* file system *)
  | WebDriverError.    (* raised by the Selenium collaborator *)

Inductive level := INFO | WARNING | ERROR.

(** The format strings of the logger calls, with the values they print. *)
Inductive message :=
  | MInitialized
  | MStartingCheck
  | MInitScraper
  | MScraperNone
  | MFound (n : Z)
  | MInvalidFormat (cid : string)
  | MNewCourse (t : string)
  | MSending (n : Z)
  | MSent
  | MSeenUpdated
  | MNotifyFailed
  | MNoNew
  | MSaved (n : Z)
  | MSaveError
  | MCheckError (e : exn)
  | MTooMany (n : Z)
  | MRestarted
  | MRestartFailed (e : exn)
  | MCleaned (n : Z)
  | MNotADict
  | MLoadError (e : exn)
  | MBackedUp.

Definition logrec : Type := level * message.

(** Calls that leave the process, in program order; a call is recorded
    when it is made, whatever its outcome. *)
Inductive effect :=
  | CreateScraper                              (* [SeleniumUdemyScraper(headless=True)] *)
  | Fetch                                      (* [scraper.get_free_programming_courses()] *)
  | Notify (batch : list course)               (* [notifier.send_notification(new_courses)] *)
  | QuitDriver                                 (* [scraper.driver.quit()] *)
  | WriteSeen (snapshot : gmap string stored) (written : bool).
      (* [open(SEEN_COURSES_FILE, 'w')] and [json.dump]; did they go through *)

(** The scraper object held by the agent. *)
Record scraper_t := Scraper { headless : bool }.

(** The attributes of [ProductionUdemyAgent] set by [__init__], the records
    written by [self.logger] and the calls made to the outside. *)
Record agent := Agent {
  scraper : option scraper_t;
  seen_courses : gmap string stored;
  is_running : bool;
  last_successful_check : option Z;
  consecutive_failures : Z;
  max_consecutive_failures : Z;
  health_check_interval : Z;
  restart_on_failure : bool;
  health_status : health;
  log : list logrec;
  effects : list effect
}.

(** What the outside answers during one call of [check_for_new_courses]. *)
Inductive outcome (A : Type) :=
  | Returns (a : A)
  | Throws (e : exn).
Arguments Returns {A} a.
Arguments Throws {A} e.

(** The clock is read once per call: the several [datetime.now()] of one
    call are taken to return the same instant. *)
Record world := World {
  now : Z;                                      (* [datetime.now()], read once per call *)
  create_scraper : outcome scraper_t;           (* the constructor call of line 152 *)
  fetch : outcome (option (list course));       (* [None], or a list *)
  smtp_ok : bool;                               (* does the SMTP exchange of the notifier go through *)
  disk_ok : bool;                               (* can SEEN_COURSES_FILE be written *)
  quit_driver : outcome unit;                   (* [self.scraper.driver.quit()] in [_restart_scraper] *)
  recreate_scraper : outcome scraper_t          (* the constructor call of line 253 *)
}.

(** ** Field updates *)

Definition set_scraper (v : option scraper_t) (a : agent) : agent :=
  Agent v (seen_courses a) (is_running a) (last_successful_check a)
    (consecutive_failures a) (max_consecutive_failures a)
    (health_check_interval a) (restart_on_failure a) (health_status a)
    (log a) (effects a).

Definition set_seen_courses (v : gmap string stored) (a : agent) : agent :=
  Agent (scraper a) v (is_running a) (last_successful_check a)
    (consecutive_failures a) (max_consecutive_failures a)
    (health_check_interval a) (restart_on_failure a) (health_status a)
    (log a) (effects a).

Definition set_last_successful_check (v : option Z) (a : agent) : agent :=
  Agent (scraper a) (seen_courses a) (is_running a) v
    (consecutive_failures a) (max_consecutive_failures a)
    (health_check_interval a) (restart_on_failure a) (health_status a)
    (log a) (effects a).

Definition set_consecutive_failures (v : Z) (a : agent) : agent :=
  Agent (scraper a) (seen_courses a) (is_running a) (last_successful_check a)
    v (max_consecutive_failures a)
    (health_check_interval a) (restart_on_failure a) (health_status a)
    (log a) (effects a).

Definition set_health_status (v : health) (a : agent) : agent :=
  Agent (scraper a) (seen_courses a) (is_running a) (last_successful_check a)
    (consecutive_failures a) (max_consecutive_failures a)
    (health_check_interval a) (restart_on_failure a) v
    (log a) (effects a).

Definition add_log (r : logrec) (a : agent) : agent :=
  Agent (scraper a) (seen_courses a) (is_running a) (last_successful_check a)
    (consecutive_failures a) (max_consecutive_failures a)
    (health_check_interval a) (restart_on_failure a) (health_status a)
    (log a ++ [r]) (effects a).

Definition add_effect (e : effect) (a : agent) : agent :=
  Agent (scraper a) (seen_courses a) (is_running a) (last_successful_check a)
    (consecutive_failures a) (max_consecutive_failures a)
    (health_check_interval a) (restart_on_failure a) (health_status a)
    (log a) (effects a ++ [e]).

Definition set_status (v : status_t) (h : health) : health :=
  Health v (last_check h) (courses_found h) (emails_sent h) (errors h)
    (start_time h) (pid h).

Definition set_last_check (v : option Z) (h : health) : health :=
  Health (status h) v (courses_found h) (emails_sent h) (errors h)
    (start_time h) (pid h).

Definition set_courses_found (v : Z) (h : health) : health :=
  Health (status h) (last_check h) v (emails_sent h) (errors h)
    (start_time h) (pid h).

Definition set_emails_sent (v : Z) (h : health) : health :=
  Health (status h) (last_check h) (courses_found h) v (errors h)
    (start_time h) (pid h).

Definition set_errors (v : Z) (h : health) : health :=
  Health (status h) (last_check h) (courses_found h) (emails_sent h) v
    (start_time h) (pid h).

(** ** Statements that read and write [self], and may raise *)

Inductive result (A : Type) :=
  | Ok (a : A)
  | Raise (e : exn).
Arguments Ok {A} a.
Arguments Raise {A} e.

(** A method body: it runs on the agent and ends normally or by raising;
    what it assigned before raising stays assigned. *)
Definition Py (A : Type) : Type := agent → result A * agent.

Definition ret {A} (x : A) : Py A := λ a, (Ok x, a).

Definition bind {A B} (m : Py A) (k : A → Py B) : Py B :=
  λ a, match m a with
       | (Ok x, a') => k x a'
       | (Raise e, a') => (Raise e, a')
       end.

Definition raise {A} (e : exn) : Py A := λ a, (Raise e, a).

(** [try: m except Exception as e: h e]. *)
Definition try_except {A} (m : Py A) (h : exn → Py A) : Py A :=
  λ a, match m a with
       | (Ok x, a') => (Ok x, a')
       | (Raise e, a') => h e a'
       end.

Definition get {A} (f : agent → A) : Py A := λ a, (Ok (f a), a).

Definition update (f : agent → agent) : Py unit := λ a, (Ok tt, f a).

Declare Scope py_scope.
Delimit Scope py_scope with py.
Notation "x <- m ;; k" := (bind m (λ x, k))
  (at level 100, m at next level, right associativity) : py_scope.
Notation "m ;;; k" := (bind m (λ _, k))
  (at level 100, right associativity) : py_scope.
Local Open Scope py_scope.

Definition logger (l : level) (m : message) : Py unit := update (add_log (l, m)).

Definition call (e : effect) : Py unit := update (add_effect e).

Definition update_health (f : health → health) : Py unit :=
  update (λ a, set_health_status (f (health_status a)) a).

Definition lift {A} (o : outcome A) : Py A :=
  match o with
  | Returns x => ret x
  | Throws e => raise e
  end.

Definition when (b : bool) (m : Py unit) : Py unit := if b then m else ret tt.

(** ** [EmailNotifier.send_notification] *)

(** An empty batch returns [True] at once; otherwise everything is inside a
    [try] that returns [False] on any exception. *)
Definition send_notification (w : world) (new_courses : list course) : Py bool :=
  call (Notify new_courses);;;
  match new_courses with
  | [] => ret true
  | _ :: _ => ret (smtp_ok w)
  end.

(** ** [_save_seen_courses] *)

(** The write is attempted in a [try]; when it fails the [except] clause
    logs the error and the method returns normally. *)
Definition _save_seen_courses (w : world) (course_ids : gmap string stored) : Py unit :=
  call (WriteSeen course_ids (disk_ok w));;;
  if disk_ok w
  then logger INFO (MSaved (Z.of_nat (size course_ids)))
  else logger ERROR MSaveError.

(** ** The diff loop of [check_for_new_courses] (lines 168-188) *)

Definition len {A} (l : list A) : Z := Z.of_nat (length l).

(** [existing_course_data.get('seen_count', 0) + 1]. *)
Definition next_count (existing : metadata) : result jcount :=
  match default (CInt 0) (seen_count existing) with
  | CInt n => Ok (CInt (n + 1))
  | CBad => Raise TypeError
  end.

Definition lift_result {A} (r : result A) : Py A :=
  match r with
  | Ok x => ret x
  | Raise e => raise e
  end.

Definition with_first_seen (t : jtime) (m : metadata) : metadata :=
  Metadata (title m) (url m) (Some t) (last_seen m) (seen_count m).

(** One iteration: [acc] is [(new_courses, current_course_ids)]. *)
Definition scan_one (w : world) (c : course)
    (acc : list course * gmap string metadata) : Py (list course * gmap string metadata) :=
  seen <- get seen_courses;;
  existing <- match seen !! course_id c with
              | Some (Meta m) => ret m
              | Some NotDict =>
                  logger WARNING (MInvalidFormat (course_id c));;; ret empty_dict
              | None => ret empty_dict
              end;;
  count <- lift_result (next_count existing);;
  let entry := Metadata (Some (course_title c)) (Some (course_url c))
                 (Some (default (TNaive (now w)) (first_seen existing)))
                 (Some (TNaive (now w))) (Some count) in
  match seen !! course_id c with
  | None =>
      logger INFO (MNewCourse (String.substring 0 50 (course_title c)));;;
      ret (acc.1 ++ [c],
           <[course_id c := with_first_seen (TNaive (now w)) entry]> acc.2)
  | Some _ => ret (acc.1, <[course_id c := entry]> acc.2)
  end.

Fixpoint scan (w : world) (courses : list course)
    (acc : list course * gmap string metadata) : Py (list course * gmap string metadata) :=
  match courses with
  | [] => ret acc
  | c :: rest => acc' <- scan_one w c acc;; scan w rest acc'
  end.

(** ** Committing (lines 200-203 and 218-220) *)

(** [for course in new_courses: if id in current: seen[id] = current[id]]. *)
Definition commit_new (new_courses : list course) (current : gmap string metadata)
    (seen : gmap string stored) : gmap string stored :=
  foldl (λ s c, match current !! course_id c with
                | Some m => <[course_id c := Meta m]> s
                | None => s
                end) seen new_courses.

(** [for id, metadata in current.items(): if id in seen: seen[id] = metadata]. *)
Definition commit_existing (current : gmap string metadata)
    (seen : gmap string stored) : gmap string stored :=
  map_fold (λ cid m s, match s !! cid with
                       | Some _ => <[cid := Meta m]> s
                       | None => s
                       end) seen current.

(** ** [_cleanup_old_courses] *)

(** A [datetime]: an instant, and whether it carries a UTC offset. *)
Record datetime := Datetime { instant : Z; aware : bool }.

Definition days (n : Z) : Z := n * 86400 * 1000000.

(** [datetime.fromisoformat(last_seen.replace('Z', '+00:00'))]. *)
Definition parse_last_seen (v : jtime) : result datetime :=
  match v with
  | TNaive t => Ok (Datetime t false)
  | TAware t => Ok (Datetime t true)
  | TGarbage => Raise ValueError
  | TFalsy | TOther => Raise AttributeError   (* [TFalsy] is stopped by [if last_seen:] *)
  end.

(** [d1 < d2] on datetimes: an offset-aware and an offset-free datetime
    cannot be ordered. *)
Definition datetime_lt (d1 d2 : datetime) : result bool :=
  if Bool.eqb (aware d1) (aware d2) then Ok (bool_decide (instant d1 < instant d2))
  else Raise TypeError.

Definition truthy (v : jtime) : bool :=
  match v with
  | TFalsy => false
  | _ => true
  end.

(** The body of the loop over [self.seen_courses.items()]: is the key
    appended to [courses_to_remove]?  The inner [try] has a bare [except]
    that keeps the course. *)
Definition to_remove (cutoff_date : datetime) (v : stored) : bool :=
  match v with
  | Meta m =>
      match last_seen m with
      | Some ls =>
          if truthy ls then
            match parse_last_seen ls with
            | Ok last_seen_date =>
                match datetime_lt last_seen_date cutoff_date with
                | Ok b => b
                | Raise _ => false
                end
            | Raise _ => false
            end
          else false
      | None => false
      end
  | NotDict => false
  end.

Definition courses_to_remove (cutoff_date : datetime)
    (seen : gmap string stored) : list string :=
  (filter (λ kv, to_remove cutoff_date kv.2 = true) (map_to_list seen)).*1.

(** [self.seen_courses] is a dict by construction ([_load_seen_courses]
    returns nothing else), so the [isinstance] guards of the source are
    never taken and nothing in the outer [try] raises. *)
Definition _cleanup_old_courses (w : world) : Py unit :=
  seen <- get seen_courses;;
  let cutoff_date := Datetime (now w - days 30) false in
  let removed := courses_to_remove cutoff_date seen in
  update (set_seen_courses (foldr delete seen removed));;;
  match removed with
  | [] => ret tt
  | _ :: _ =>
      logger INFO (MCleaned (len removed));;;
      seen' <- get seen_courses;;
      _save_seen_courses w seen'
  end.

(** ** [_restart_scraper] *)

Definition _restart_scraper (w : world) : Py unit :=
  try_except
    (sc <- get scraper;;
     match sc with
     | Some _ =>
         call QuitDriver;;;
         lift (quit_driver w);;;
         update (set_scraper None)
     | None => ret tt
     end;;;
     call CreateScraper;;;
     s <- lift (recreate_scraper w);;
     update (set_scraper (Some s));;;
     logger INFO MRestarted;;;
     update (set_consecutive_failures 0))
    (λ e, logger ERROR (MRestartFailed e)).

(** ** [check_for_new_courses] *)

Definition bump_failures : Py unit :=
  update (λ a, set_consecutive_failures (consecutive_failures a + 1) a).

Definition bump_errors : Py unit :=
  update_health (λ h, set_errors (errors h + 1) h).

(** The statements inside the [try]. *)
Definition check_body (w : world) : Py bool :=
  logger INFO MStartingCheck;;;
  update_health (set_last_check (Some (now w)));;;
  sc <- get scraper;;
  match sc with
  | None =>
      logger INFO MInitScraper;;;
      call CreateScraper;;;
      s <- lift (create_scraper w);;
      update (set_scraper (Some s))
  | Some _ => ret tt
  end;;;
  call Fetch;;;
  fetched <- lift (fetch w);;
  courses <- match fetched with
             | None => logger WARNING MScraperNone;;; ret []
             | Some l => ret l
             end;;
  logger INFO (MFound (len courses));;;
  update_health (λ h, set_courses_found (courses_found h + len courses) h);;;
  acc <- scan w courses ([], ∅);;
  let new_courses := acc.1 in
  let current_course_ids := acc.2 in
  match new_courses with
  | _ :: _ =>
      logger INFO (MSending (len new_courses));;;
      success <- send_notification w new_courses;;
      if success then
        update_health (λ h, set_emails_sent (emails_sent h + 1) h);;;
        logger INFO MSent;;;
        update (λ a, set_seen_courses
                       (commit_new new_courses current_course_ids (seen_courses a)) a);;;
        seen <- get seen_courses;;
        _save_seen_courses w seen;;;
        logger INFO MSeenUpdated;;;
        update (set_consecutive_failures 0)
      else
        logger ERROR MNotifyFailed;;;
        bump_failures;;;
        bump_errors
  | [] => logger INFO MNoNew
  end;;;
  update (λ a, set_seen_courses (commit_existing current_course_ids (seen_courses a)) a);;;
  seen <- get seen_courses;;
  _save_seen_courses w seen;;;
  _cleanup_old_courses w;;;
  update_health (set_status Healthy);;;
  update (set_last_successful_check (Some (now w)));;;
  ret true.

(** The [except Exception] clause. *)
Definition check_handler (w : world) (e : exn) : Py bool :=
  logger ERROR (MCheckError e);;;
  bump_failures;;;
  bump_errors;;;
  update_health (set_status Error);;;
  a <- get (λ a, a);;
  when (restart_on_failure a
        && bool_decide (max_consecutive_failures a ≤ consecutive_failures a))
    (logger ERROR (MTooMany (consecutive_failures a));;;
     _restart_scraper w);;;
  ret false.

Definition check_for_new_courses (w : world) : Py bool :=
  try_except (check_body w) (check_handler w).

(** ** [_load_seen_courses] and [__init__] *)

(** The value under the key ['seen_courses'] of the stored document. *)
Inductive seen_field :=
  | FieldDict (m : gmap string stored)
  | FieldOther.

(** What [json.load] returns: an object (with or without the key), or a
    value without a [get] method. *)
Inductive json_doc :=
  | DocObject (field : option seen_field)
  | DocOther.

(** A file that exists: text that is a JSON document or not, or a file
    that cannot be opened for reading. *)
Inductive file :=
  | FileText (doc : option json_doc)
  | Unreadable.

Record disk := Disk {
  seen_file : option file;        (* SEEN_COURSES_FILE, if it exists *)
  backup_file : option file;      (* SEEN_COURSES_FILE.backup *)
  backup_writable : bool
}.

(** [open(SEEN_COURSES_FILE, 'r')] followed by [json.load(f)]. *)
Definition read_json (f : file) : result json_doc :=
  match f with
  | FileText (Some doc) => Ok doc
  | FileText None => Raise JSONDecodeError
  | Unreadable => Raise OSError
  end.

(** [shutil.copy(SEEN_COURSES_FILE, backup_file)]. *)
Definition shutil_copy (d : disk) : result disk :=
  match seen_file d with
  | Some (FileText doc) =>
      if backup_writable d
      then Ok (Disk (seen_file d) (Some (FileText doc)) (backup_writable d))
      else Raise OSError
  | Some Unreadable | None => Raise OSError
  end.

(** The result is the returned dict or the exception that leaves the
    method, with the records logged and the disk afterwards. *)
Definition _load_seen_courses (d : disk)
    : result (gmap string stored) * (list logrec * disk) :=
  let attempt : result (gmap string stored) * list logrec :=
    match seen_file d with
    | Some f =>
        match read_json f with
        | Ok (DocObject None) => (Ok ∅, [])
        | Ok (DocObject (Some (FieldDict m))) => (Ok m, [])
        | Ok (DocObject (Some FieldOther)) => (Ok ∅, [(WARNING, MNotADict)])
        | Ok DocOther => (Raise AttributeError, [])
        | Raise e => (Raise e, [])
        end
    | None => (Ok ∅, [])
    end in
  match attempt with
  | (Ok m, l) => (Ok m, (l, d))
  | (Raise e, l) =>
      let l := l ++ [(ERROR, MLoadError e)] in
      match seen_file d with
      | Some _ =>
          match shutil_copy d with
          | Ok d' => (Ok ∅, (l ++ [(INFO, MBackedUp)], d'))
          | Raise e' => (Raise e', (l, d))
          end
      | None => (Ok ∅, (l, d))
      end
  end.

(** The attributes assigned by [__init__], once the seen-set is loaded;
    [l] is what the logger has written so far. *)
Definition new_agent (seen : gmap string stored) (l : list logrec)
    (start_time pid : Z) : agent :=
  Agent None seen false None 0 5 300 true
    (Health Starting None 0 0 0 start_time pid) l [].

(** [_setup_production_logging] logs first; an exception of
    [_load_seen_courses] leaves the constructor. *)
Definition __init__ (d : disk) (start_time pid : Z) : result agent * disk :=
  match _load_seen_courses d with
  | (Ok seen, (l, d')) =>
      (Ok (new_agent seen ((INFO, MInitialized) :: l) start_time pid), d')
  | (Raise e, (_, d')) => (Raise e, d')
  end.

(** ** What [_save_seen_courses] leaves on the disk *)

(** What [json.dump(data, f)] in [_save_seen_courses] leaves in
    SEEN_COURSES_FILE: an object whose key ['seen_courses'] holds the dict
    (the keys ['last_updated'] and ['total_courses'] are not read back by
    the agent). *)
Definition saved_file (m : gmap string stored) : file :=
  FileText (Some (DocObject (Some (FieldDict m)))).

(** The disk after one call to the outside.  A write that does not go
    through fails at [open] and leaves the file as it was. *)
Definition store (d : disk) (e : effect) : disk :=
  match e with
  | WriteSeen m true =>
      Disk (Some (saved_file m)) (backup_file d) (backup_writable d)
  | _ => d
  end.

(** ** Running several cycles *)

(** The scheduler calls [check_for_new_courses] once per interval; [run]
    feeds it one [world] per call. *)
Fixpoint run (ws : list world) (a : agent) : agent :=
  match ws with
  | [] => a
  | w :: rest => run rest (check_for_new_courses w a).2
  end.

(** * Closed forms and observations

    The definitions of this part are not translations of source
    functions: they describe, in direct style, what the methods above
    compute, and name what the properties below speak about.  The first
    lemmas of the next part prove that they agree with the methods. *)

(** ** The diff loop *)

(** The agent with another log. *)
Definition with_log (l : list logrec) (a : agent) : agent :=
  Agent (scraper a) (seen_courses a) (is_running a) (last_successful_check a)
    (consecutive_failures a) (max_consecutive_failures a)
    (health_check_interval a) (restart_on_failure a) (health_status a)
    l (effects a).

(** The dict the loop reads for a course id. *)
Definition existing_of (seen : gmap string stored) (cid : string) : metadata :=
  match seen !! cid with
  | Some (Meta m) => m
  | _ => empty_dict
  end.

(** The entry the loop stores in [current_course_ids] for a course. *)
Definition pending_entry (w : world) (seen : gmap string stored) (c : course)
    : result metadata :=
  match next_count (existing_of seen (course_id c)) with
  | Ok count =>
      Ok (Metadata (Some (course_title c)) (Some (course_url c))
            (Some (default (TNaive (now w))
                     (first_seen (existing_of seen (course_id c)))))
            (Some (TNaive (now w))) (Some count))
  | Raise e => Raise e
  end.

(** [course_id not in self.seen_courses]. *)
Definition is_new (seen : gmap string stored) (c : course) : bool :=
  bool_decide (seen !! course_id c = None).

(** What one iteration logs, and the loop as a whole: its result and its
    log. *)
Definition one_log (seen : gmap string stored) (c : course) : list logrec :=
  match seen !! course_id c with
  | Some NotDict => [(WARNING, MInvalidFormat (course_id c))]
  | Some (Meta _) => []
  | None => [(INFO, MNewCourse (String.substring 0 50 (course_title c)))]
  end.

Fixpoint scan_result (w : world) (seen : gmap string stored) (courses : list course)
    (acc : list course * gmap string metadata)
    : result (list course * gmap string metadata) :=
  match courses with
  | [] => Ok acc
  | c :: rest =>
      match pending_entry w seen c with
      | Ok e =>
          scan_result w seen rest
            (if is_new seen c then acc.1 ++ [c] else acc.1,
             <[course_id c := e]> acc.2)
      | Raise e => Raise e
      end
  end.

Fixpoint scan_log (w : world) (seen : gmap string stored) (courses : list course)
    : list logrec :=
  match courses with
  | [] => []
  | c :: rest =>
      one_log seen c ++
      match pending_entry w seen c with
      | Ok _ => scan_log w seen rest
      | Raise _ => []
      end
  end.

(** The new-items batch, as the loop leaves it. *)
Definition new_courses_of (seen : gmap string stored) (courses : list course)
    : list course :=
  filter (λ c, seen !! course_id c = None) courses.

(** ** A call that completes *)

(** The seen-set after the deletions of [_cleanup_old_courses]. *)
Definition prune (cutoff : datetime) (seen : gmap string stored)
    : gmap string stored :=
  foldr delete seen (courses_to_remove cutoff seen).

(** Appending to the log and to the trace of calls. *)
Definition add_logs (l : list logrec) (a : agent) : agent :=
  with_log (log a ++ l) a.

Definition add_effects (l : list effect) (a : agent) : agent :=
  Agent (scraper a) (seen_courses a) (is_running a) (last_successful_check a)
    (consecutive_failures a) (max_consecutive_failures a)
    (health_check_interval a) (restart_on_failure a) (health_status a)
    (log a) (effects a ++ l).

(** What [_save_seen_courses] logs. *)
Definition save_log (w : world) (m : gmap string stored) : list logrec :=
  if disk_ok w then [(INFO, MSaved (Z.of_nat (size m)))] else [(ERROR, MSaveError)].

(** The scraper the cycle works with: the one held, or a fresh one. *)
Definition ready (w : world) (a : agent) : outcome scraper_t :=
  match scraper a with
  | Some s => Returns s
  | None => create_scraper w
  end.

(** What the creation of the scraper on line 152 logs and calls. *)
Definition init_log (a : agent) : list logrec :=
  match scraper a with
  | Some _ => []
  | None => [(INFO, MInitScraper)]
  end.

Definition init_effects (a : agent) : list effect :=
  match scraper a with
  | Some _ => []
  | None => [CreateScraper]
  end.

(** [datetime.now() - timedelta(days=30)]. *)
Definition cutoff_date (w : world) : datetime := Datetime (now w - days 30) false.

(** Was a notification sent and delivered? *)
Definition delivered (w : world) (new_courses : list course) : bool :=
  match new_courses with
  | [] => false
  | _ :: _ => smtp_ok w
  end.

(** Was a notification sent and lost? *)
Definition undelivered (w : world) (new_courses : list course) : bool :=
  match new_courses with
  | [] => false
  | _ :: _ => negb (smtp_ok w)
  end.

Section Completed.
Variables (w : world) (a : agent) (s : scraper_t)
          (fetched : option (list course))
          (new_courses : list course) (current : gmap string metadata).

(** The seen-set after lines 200-203, after lines 218-220 and after
    [_cleanup_old_courses]. *)
Definition seen_notified : gmap string stored :=
  if delivered w new_courses
  then commit_new new_courses current (seen_courses a)
  else seen_courses a.

Definition seen_committed : gmap string stored :=
  commit_existing current seen_notified.

Definition seen_pruned : gmap string stored :=
  prune (cutoff_date w) seen_committed.

Definition completed_log : list logrec :=
  [(INFO, MStartingCheck)] ++ init_log a ++
  match fetched with None => [(WARNING, MScraperNone)] | Some _ => [] end ++
  [(INFO, MFound (len (default [] fetched)))] ++
  scan_log w (seen_courses a) (default [] fetched) ++
  match new_courses with
  | [] => [(INFO, MNoNew)]
  | _ :: _ =>
      (INFO, MSending (len new_courses)) ::
      if smtp_ok w
      then [(INFO, MSent)] ++ save_log w seen_notified ++ [(INFO, MSeenUpdated)]
      else [(ERROR, MNotifyFailed)]
  end ++
  save_log w seen_committed ++
  match courses_to_remove (cutoff_date w) seen_committed with
  | [] => []
  | (_ :: _) as removed => (INFO, MCleaned (len removed)) :: save_log w seen_pruned
  end.

Definition completed_effects : list effect :=
  init_effects a ++ [Fetch] ++
  match new_courses with
  | [] => []
  | _ :: _ =>
      Notify new_courses ::
      if smtp_ok w then [WriteSeen seen_notified (disk_ok w)] else []
  end ++
  [WriteSeen seen_committed (disk_ok w)] ++
  match courses_to_remove (cutoff_date w) seen_committed with
  | [] => []
  | _ :: _ => [WriteSeen seen_pruned (disk_ok w)]
  end.

Definition completed_health : health :=
  let h := health_status a in
  Health Healthy (Some (now w)) (courses_found h + len (default [] fetched))
    (if delivered w new_courses then emails_sent h + 1 else emails_sent h)
    (if undelivered w new_courses then errors h + 1 else errors h)
    (start_time h) (pid h).

Definition completed_failures : Z :=
  match new_courses with
  | [] => consecutive_failures a
  | _ :: _ => if smtp_ok w then 0 else consecutive_failures a + 1
  end.

(** The agent after a call that reached [return True]. *)
Definition completed : agent :=
  Agent (Some s) seen_pruned (is_running a) (Some (now w))
    completed_failures (max_consecutive_failures a)
    (health_check_interval a) (restart_on_failure a) completed_health
    (log a ++ completed_log) (effects a ++ completed_effects).
End Completed.

(** ** A call whose body raises *)

(** The agent at the point where the body raised. *)
Definition interrupted (w : world) (a : agent) : agent :=
  let h := health_status a in
  match ready w a with
  | Throws _ =>
      Agent None (seen_courses a) (is_running a) (last_successful_check a)
        (consecutive_failures a) (max_consecutive_failures a)
        (health_check_interval a) (restart_on_failure a)
        (set_last_check (Some (now w)) h)
        (log a ++ [(INFO, MStartingCheck); (INFO, MInitScraper)])
        (effects a ++ [CreateScraper])
  | Returns s =>
      match fetch w with
      | Throws _ =>
          Agent (Some s) (seen_courses a) (is_running a) (last_successful_check a)
            (consecutive_failures a) (max_consecutive_failures a)
            (health_check_interval a) (restart_on_failure a)
            (set_last_check (Some (now w)) h)
            (log a ++ [(INFO, MStartingCheck)] ++ init_log a)
            (effects a ++ init_effects a ++ [Fetch])
      | Returns fetched =>
          Agent (Some s) (seen_courses a) (is_running a) (last_successful_check a)
            (consecutive_failures a) (max_consecutive_failures a)
            (health_check_interval a) (restart_on_failure a)
            (set_courses_found (courses_found h + len (default [] fetched))
               (set_last_check (Some (now w)) h))
            (log a ++ [(INFO, MStartingCheck)] ++ init_log a ++
             match fetched with None => [(WARNING, MScraperNone)] | Some _ => [] end ++
             [(INFO, MFound (len (default [] fetched)))] ++
             scan_log w (seen_courses a) (default [] fetched))
            (effects a ++ init_effects a ++ [Fetch])
      end
  end.

(** How the statements inside the [try] end. *)
Definition body_outcome (w : world) (a : agent) : result bool * agent :=
  match ready w a with
  | Throws e => (Raise e, interrupted w a)
  | Returns s =>
      match fetch w with
      | Throws e => (Raise e, interrupted w a)
      | Returns fetched =>
          match scan_result w (seen_courses a) (default [] fetched) ([], ∅) with
          | Raise e => (Raise e, interrupted w a)
          | Ok acc => (Ok true, completed w a s fetched acc.1 acc.2)
          end
      end
  end.

(** The agent after [_cleanup_old_courses]. *)
Definition cleaned (w : world) (a : agent) : agent :=
  let pruned := prune (cutoff_date w) (seen_courses a) in
  match courses_to_remove (cutoff_date w) (seen_courses a) with
  | [] => set_seen_courses pruned a
  | (_ :: _) as removed =>
      add_effects [WriteSeen pruned (disk_ok w)]
        (add_logs ((INFO, MCleaned (len removed)) :: save_log w pruned)
           (set_seen_courses pruned a))
  end.

(** The scraper [_restart_scraper] ends up with, or the exception that its
    [except] clause logs. *)
Definition restart_result (w : world) (a : agent) : outcome scraper_t :=
  match scraper a with
  | Some _ =>
      match quit_driver w with
      | Returns _ => recreate_scraper w
      | Throws e => Throws e
      end
  | None => recreate_scraper w
  end.

(** The calls [_restart_scraper] makes. *)
Definition restart_effects (w : world) (a : agent) : list effect :=
  match scraper a with
  | Some _ =>
      QuitDriver :: match quit_driver w with
                    | Returns _ => [CreateScraper]
                    | Throws _ => []
                    end
  | None => [CreateScraper]
  end.

(** The agent after [_restart_scraper]. *)
Definition restarted (w : world) (a : agent) : agent :=
  match restart_result w a with
  | Returns s =>
      add_effects (restart_effects w a)
        (add_logs [(INFO, MRestarted)]
           (set_consecutive_failures 0 (set_scraper (Some s) a)))
  | Throws e =>
      add_effects (restart_effects w a)
        (add_logs [(ERROR, MRestartFailed e)]
           (set_scraper
              (match scraper a, quit_driver w with
               | Some s, Throws _ => Some s
               | _, _ => None
               end) a))
  end.

(** Does the [except] clause call [_restart_scraper]?  [a] is the agent
    when the exception reaches the clause. *)
Definition restart_due (a : agent) : bool :=
  restart_on_failure a
  && bool_decide (max_consecutive_failures a ≤ consecutive_failures a + 1).

(** The counters after lines 234-237. *)
Definition counted (e : exn) (a : agent) : agent :=
  add_logs [(ERROR, MCheckError e)]
    (set_health_status
       (set_status Error
          (set_errors (errors (health_status a) + 1) (health_status a)))
       (set_consecutive_failures (consecutive_failures a + 1) a)).

(** The agent after the [except] clause. *)
Definition failed (w : world) (e : exn) (a : agent) : agent :=
  if restart_due a
  then restarted w
         (add_logs [(ERROR, MTooMany (consecutive_failures a + 1))] (counted e a))
  else counted e a.

(** One call of [check_for_new_courses]: the value returned and the agent
    afterwards. *)
Definition cycle (w : world) (a : agent) : bool * agent :=
  match body_outcome w a with
  | (Ok b, a') => (b, a')
  | (Raise e, a') => (false, failed w e a')
  end.

(** ** Observations *)

(** The batches handed to the notifier, oldest first. *)
Definition notifications (l : list effect) : list (list course) :=
  omap (λ e, match e with Notify batch => Some batch | _ => None end) l.

(** The seen-sets handed to the store, oldest first, each with whether the
    write went through. *)
Definition writes (l : list effect) : list (gmap string stored * bool) :=
  omap (λ e, match e with WriteSeen m ok => Some (m, ok) | _ => None end) l.

(** The same world with another answer of the scraper. *)
Definition with_fetch (f : outcome (option (list course))) (w : world) : world :=
  World (now w) (create_scraper w) f (smtp_ok w) (disk_ok w) (quit_driver w)
    (recreate_scraper w).

(** Every stored integer count is at least 1. *)
Definition counts_positive (seen : gmap string stored) : Prop :=
  ∀ k m n, seen !! k = Some (Meta m) → seen_count m = Some (CInt n) → 1 ≤ n.

(** The count the loop reads for an id: the stored one, 0 when the id, the
    dict or the key is missing. *)
Definition prior_count (seen : gmap string stored) (k : string) : Z :=
  match seen_count (existing_of seen k) with
  | Some (CInt p) => p
  | _ => 0
  end.

(** ** Concrete stores and worlds *)

(** An entry last seen at time 0, written with a UTC offset. *)
Definition stale_aware_entry : metadata :=
  Metadata (Some "Old course") (Some "https://www.udemy.com/course/old/")
    (Some (TAware 0)) (Some (TAware 0)) (Some (CInt 1)).

(** An agent whose store holds that entry only. *)
Definition stale_aware_agent : agent :=
  new_agent {[ "old" := Meta stale_aware_entry ]} [] 0 1.

(** A world where the scraper returns an empty list at time [t]. *)
Definition quiet_world (t : Z) : world :=
  World t (Returns (Scraper true)) (Returns (Some [])) true true
    (Returns tt) (Returns (Scraper true)).

(** The file holds text that is not JSON, and no backup can be written. *)
Definition corrupt_disk : disk := Disk (Some (FileText None)) None false.

(** The record logged on line 241, just before [_restart_scraper]. *)
Definition is_restart_attempt (r : logrec) : bool :=
  match r with
  | (ERROR, MTooMany _) => true
  | _ => false
  end.

(** How many times recovery was triggered, according to the log. *)
Definition restart_attempts (l : list logrec) : nat :=
  length (filter (λ r, is_restart_attempt r = true) l).

(** Every call of the run returns [False]. *)
Fixpoint all_fail (ws : list world) (a : agent) : Prop :=
  match ws with
  | [] => True
  | w :: rest =>
      (check_for_new_courses w a).1 = Ok false ∧
      all_fail rest (check_for_new_courses w a).2
  end.

(** A fetch that raises before a driver exists: [driver] is still [None],
    so [self.scraper.driver.quit()] raises AttributeError in
    [_restart_scraper]. *)
Definition broken_world : world :=
  World 1000 (Returns (Scraper true)) (Throws WebDriverError) true true
    (Throws AttributeError) (Returns (Scraper true)).

(** The same fetch failure with a driver that can be quit. *)
Definition failing_world : world :=
  World 1000 (Returns (Scraper true)) (Throws WebDriverError) true true
    (Returns tt) (Returns (Scraper true)).

(** The agent after [__init__] on a missing file. *)
Definition fresh_agent : agent := new_agent ∅ [] 0 1.

(** Two failed fetches, then a fetch that returns an empty list. *)
Definition twice_failed_agent : agent :=
  run [failing_world; failing_world] fresh_agent.

(** Two courses, and the entry of the first after one sighting at time 0. *)
Definition course_a : course := Course "a" "A" "https://www.udemy.com/course/a/".
Definition course_b : course := Course "b" "B" "https://www.udemy.com/course/b/".

Definition entry_a : metadata :=
  Metadata (Some "A") (Some "https://www.udemy.com/course/a/")
    (Some (TNaive 0)) (Some (TNaive 0)) (Some (CInt 1)).

(** An agent that has seen [a] once, at time 0. *)
Definition agent_a : agent := new_agent {[ "a" := Meta entry_a ]} [] 0 1.

(** A world where the scraper returns [courses] at time [t]. *)
Definition poll (t : Z) (courses : list course) (smtp : bool) : world :=
  World t (Returns (Scraper true)) (Returns (Some courses)) smtp true
    (Returns tt) (Returns (Scraper true)).

(** A world where the scraper returns [None]. *)
Definition none_world : world :=
  World 1000 (Returns (Scraper true)) (Returns None) true true
    (Returns tt) (Returns (Scraper true)).

(** ** Observations on the file and on runs *)

(** The calls made between two states of the agent. *)
Definition calls_since (a a' : agent) : list effect :=
  drop (length (effects a)) (effects a').

(** The scraper returns a list in which the id [k] occurs. *)
Definition fetches_id (k : string) (w : world) : Prop :=
  ∃ courses, fetch w = Returns (Some courses) ∧ k ∈ course_id <$> courses.

(** The driver cannot be quit. *)
Definition quit_fails (w : world) : Prop := ∃ e, quit_driver w = Throws e.

(** A store whose key ['seen_courses'] holds a list, and no backup. *)
Definition list_disk : disk :=
  Disk (Some (FileText (Some (DocObject (Some FieldOther))))) None true.

(** An entry whose count is a string. *)
Definition bad_count_entry : metadata :=
  Metadata (Some "A") (Some "https://www.udemy.com/course/a/")
    (Some (TNaive 0)) (Some (TNaive 0)) (Some CBad).

Definition bad_count_agent : agent :=
  new_agent {[ "a" := Meta bad_count_entry ]} [] 0 1.

(** An agent whose entry for [a] is not a dict. *)
Definition non_dict_agent : agent := new_agent {[ "a" := NotDict ]} [] 0 1.

(** An agent that holds a scraper and has failed four times in a row. *)
Definition worn_agent : agent :=
  set_consecutive_failures 4 (set_scraper (Some (Scraper true)) fresh_agent).

(** * The methods around the poll cycle

    [run_once], [stop], [_save_health_status], [_health_monitor],
    [_signal_handler] and [run_scheduler] of
    [ProductionUdemyAgent].  They log records of their own and write
    [logs/health_status.json]; these are kept, in program order, in a
    second trace beside the agent.  The health monitor runs in a thread
    of its own: its passes are described one by one and are not
    interleaved with the scheduler, and a signal is taken to arrive while
    the main thread sleeps. *)

Definition set_is_running (v : bool) (a : agent) : agent :=
  Agent (scraper a) (seen_courses a) v (last_successful_check a)
    (consecutive_failures a) (max_consecutive_failures a)
    (health_check_interval a) (restart_on_failure a) (health_status a)
    (log a) (effects a).

(** The format strings of the logger calls of these methods. *)
Inductive op_message :=
  | MRunningSingle
  | MSingleCompleted
  | MSingleFailed
  | MStopping
  | MStopped
  | MNoSuccessfulCheck (age : Z)
  | MHealthPassed (page_title : string)
  | MHealthFailed
  | MHealthStatus (st : status_t) (courses emails errs : Z)
  | MMonitorError (e : exn)
  | MHealthNotSaved (e : exn)
  | MStarting (hours : Z)
  | MNextCheck (next_run : Z)
  | MAgentError (e : exn)
  | MSignal (signum : Z).

Inductive event :=
  | Logged (l : level) (m : op_message)
  | WriteHealth (snapshot : health) (written : bool)
      (* [json.dump(self.health_status, f)] into logs/health_status.json *)
  | ReadTitle                      (* [self.scraper.driver.title] *)
  | Sleep (seconds : Z)            (* [time.sleep] *)
  | StartMonitor.                  (* [health_thread.start()] *)

Record process := Process {
  self : agent;
  events : list event
}.

(** What the outside answers to these methods, beside the [world]. *)
Record host := Host {
  driver_title : outcome string;   (* [self.scraper.driver.title] *)
  health_file_ok : bool            (* can logs/health_status.json be written *)
}.

(** A method body on the process; as in [Py], what was assigned before an
    exception stays assigned. *)
Definition Op (A : Type) : Type := process → result A * process.

Definition op_ret {A} (x : A) : Op A := λ p, (Ok x, p).

Definition op_bind {A B} (m : Op A) (k : A → Op B) : Op B :=
  λ p, match m p with
       | (Ok x, p') => k x p'
       | (Raise e, p') => (Raise e, p')
       end.

Definition op_raise {A} (e : exn) : Op A := λ p, (Raise e, p).

Definition op_try {A} (m : Op A) (h : exn → Op A) : Op A :=
  λ p, match m p with
       | (Ok x, p') => (Ok x, p')
       | (Raise e, p') => h e p'
       end.

(** A statement that works on [self] only. *)
Definition on_self {A} (m : Py A) : Op A :=
  λ p, match m (self p) with
       | (r, a') => (r, Process a' (events p))
       end.

Definition emit (e : event) : Op unit :=
  λ p, (Ok tt, Process (self p) (events p ++ [e])).

Definition op_logger (l : level) (m : op_message) : Op unit := emit (Logged l m).

Definition op_lift {A} (o : outcome A) : Op A :=
  match o with
  | Returns x => op_ret x
  | Throws e => op_raise e
  end.

Declare Scope op_scope.
Delimit Scope op_scope with op.
Notation "x <- m ;; k" := (op_bind m (λ x, k))
  (at level 100, m at next level, right associativity) : op_scope.
Notation "m ;;; k" := (op_bind m (λ _, k))
  (at level 100, right associativity) : op_scope.

(** ** [_save_health_status] *)

Definition _save_health_status (h : host) : Op unit :=
  (op_try
     (hs <- on_self (get health_status);;
      emit (WriteHealth hs (health_file_ok h));;;
      if health_file_ok h then op_ret tt else op_raise OSError)
     (λ e, op_logger WARNING (MHealthNotSaved e)))%op.

(** ** [run_once] *)

Definition run_once (w : world) : Op bool :=
  (op_logger INFO MRunningSingle;;;
   success <- on_self (check_for_new_courses w);;
   (if success : bool
    then op_logger INFO MSingleCompleted
    else op_logger ERROR MSingleFailed);;;
   op_ret success)%op.

(** ** [stop] *)

(** The [try] around [self.scraper.driver.quit()] has a bare [except]
    that passes. *)
Definition stop (w : world) (h : host) : Op unit :=
  (op_logger INFO MStopping;;;
   on_self (update (set_is_running false));;;
   on_self (update_health (set_status Stopped));;;
   sc <- on_self (get scraper);;
   match sc with
   | Some _ =>
       op_try (on_self (call QuitDriver);;; on_self (lift (quit_driver w)))
         (λ _, op_ret tt)
   | None => op_ret tt
   end;;;
   _save_health_status h;;;
   op_logger INFO MStopped)%op.

(** ** [_health_monitor] *)

Definition CHECK_INTERVAL_HOURS : Z := 24.

(** [time_since_last_check.total_seconds() > CHECK_INTERVAL_HOURS * 3600 * 1.5]:
    the difference of the two instants is a whole number of microseconds,
    and the bound, 129600.0 seconds, is one too. *)
Definition overdue (now_ last : Z) : bool :=
  bool_decide (CHECK_INTERVAL_HOURS * 3600 * 1500000 < now_ - last).

(** The body of the [while self.is_running] loop, with the [time.sleep]
    that ends it.  A scraper object always has the attribute [driver]. *)
Definition health_check (w : world) (h : host) : Op unit :=
  (op_try
     (lsc <- on_self (get last_successful_check);;
      match lsc with
      | Some last =>
          if overdue (now w) last then
            op_logger WARNING (MNoSuccessfulCheck (now w - last));;;
            on_self (update_health (set_status Degraded));;;
            sc <- on_self (get scraper);;
            match sc with
            | Some _ =>
                op_try
                  (emit ReadTitle;;;
                   page_title <- op_lift (driver_title h);;
                   op_logger INFO (MHealthPassed page_title);;;
                   on_self (update_health (set_status Healthy)))
                  (λ _, op_logger ERROR MHealthFailed;;;
                        on_self (_restart_scraper w))
            | None => op_ret tt
            end
          else op_ret tt
      | None => op_ret tt
      end;;;
      hs <- on_self (get health_status);;
      op_logger INFO (MHealthStatus (status hs) (courses_found hs)
                        (emails_sent hs) (errors hs));;;
      _save_health_status h)
     (λ e, op_logger ERROR (MMonitorError e));;;
   interval <- on_self (get health_check_interval);;
   emit (Sleep interval))%op.

(** The loop, one [world] and [host] for each pass; the flag is read
    before each pass. *)
Fixpoint _health_monitor (passes : list (world * host)) : Op unit :=
  match passes with
  | [] => op_ret tt
  | (w, h) :: rest =>
      (running <- on_self (get is_running);;
       if running : bool
       then health_check w h;;; _health_monitor rest
       else op_ret tt)%op
  end.

(** ** [_signal_handler] and [run_scheduler] *)

(** A signal that is delivered while the main thread sleeps: its number,
    and what the outside answers to the [stop] that the handler calls. *)
Record interrupt := Interrupt {
  signum : Z;
  at_world : world;
  at_host : host
}.

Definition _signal_handler (i : interrupt) : Op unit :=
  (op_logger INFO (MSignal (signum i));;;
   stop (at_world i) (at_host i))%op.

(** How a loop is left in the model: the loop ended, or what the outside
    was given to answer is used up while the loop goes on. *)
Inductive ended := Left | Pending.

(** The loop of lines 371-377; [n] counts the calls of [time.sleep].
    A signal is handled during the sleep, which then runs to its end. *)
Fixpoint sleep_loop (fuel : nat) (signals : nat → option interrupt)
    (sleep_time slept : Z) (n : nat) : Op ended :=
  match fuel with
  | O => op_ret Pending
  | S fuel' =>
      (running <- on_self (get is_running);;
       if bool_decide (slept < sleep_time) && running then
         emit (Sleep (Z.min 60 (sleep_time - slept)));;;
         match signals n with
         | Some i => _signal_handler i
         | None => op_ret tt
         end;;;
         still_running <- on_self (get is_running);;
         if negb still_running then op_ret Left
         else sleep_loop fuel' signals sleep_time (slept + 60) (S n)
       else op_ret Left)%op
  end.

(** One pass of the [while self.is_running] loop of [run_scheduler]: the
    clock when it starts, the signals delivered during its sleeps, and the
    outside at the check that ends it. *)
Record interval := Interval {
  started : Z;
  signals : nat → option interrupt;
  poll_world : world
}.

Definition hours (n : Z) : Z := n * 3600 * 1000000.



(** ** Closed forms of these methods *)

(** What [_save_health_status] appends to the trace. *)
Definition health_saved (h : host) (a : agent) : list event :=
  WriteHealth (health_status a) (health_file_ok h) ::
  if health_file_ok h then [] else [Logged WARNING (MHealthNotSaved OSError)].

(** The agent after [stop]. *)
Definition stopped_agent (a : agent) : agent :=
  let a' := set_health_status (set_status Stopped (health_status a))
              (set_is_running false a) in
  match scraper a with
  | Some _ => add_effects [QuitDriver] a'
  | None => a'
  end.

(** The process after [stop]. *)
Definition stopped (h : host) (p : process) : process :=
  Process (stopped_agent (self p))
    (events p ++ [Logged INFO MStopping] ++ health_saved h (stopped_agent (self p))
     ++ [Logged INFO MStopped]).

(** Does the health check find the last successful check too old? *)
Definition is_overdue (w : world) (a : agent) : bool :=
  match last_successful_check a with
  | Some last => overdue (now w) last
  | None => false
  end.

(** The writes of the health file, oldest first. *)
Definition health_writes (l : list event) : list (health * bool) :=
  omap (λ e, match e with WriteHealth hs ok => Some (hs, ok) | _ => None end) l.

(** An agent that holds a scraper and whose last successful check was at
    time 0. *)
Definition idle_agent : agent :=
  set_last_successful_check (Some 0)
    (set_health_status (set_status Error (health_status fresh_agent))
       (set_is_running true (set_scraper (Some (Scraper true)) fresh_agent))).

(** Two days later, with a driver that answers. *)
Definition late_world : world := quiet_world (days 2).
Definition live_host : host := Host (Returns "Udemy") true.
Definition dead_host : host := Host (Throws WebDriverError) false.

(** The agent after one pass of the health monitor. *)
Definition checked_agent (w : world) (h : host) (a : agent) : agent :=
  if is_overdue w a then
    let degraded := set_health_status (set_status Degraded (health_status a)) a in
    match scraper a with
    | Some _ =>
        match driver_title h with
        | Returns _ =>
            set_health_status (set_status Healthy (health_status a)) a
        | Throws _ => restarted w degraded
        end
    | None => degraded
    end
  else a.

(** What one pass appends to the trace. *)
Definition check_events (w : world) (h : host) (a : agent) : list event :=
  (if is_overdue w a then
     Logged WARNING
       (MNoSuccessfulCheck (now w - default 0 (last_successful_check a))) ::
     match scraper a with
     | Some _ =>
         ReadTitle ::
         match driver_title h with
         | Returns page_title => [Logged INFO (MHealthPassed page_title)]
         | Throws _ => [Logged ERROR MHealthFailed]
         end
     | None => []
     end
   else []) ++
  let hs := health_status (checked_agent w h a) in
  [Logged INFO (MHealthStatus (status hs) (courses_found hs) (emails_sent hs)
                  (errors hs))] ++
  health_saved h (checked_agent w h a) ++
  [Sleep (health_check_interval (checked_agent w h a))].


(** The seconds slept, oldest first. *)
Definition sleeps (l : list event) : list Z :=
  omap (λ e, match e with Sleep t => Some t | _ => None end) l.

(** The arguments of the first [k] calls of [time.sleep] in the loop. *)
Fixpoint slices (k : nat) (sleep_time slept : Z) : list Z :=
  match k with
  | O => []
  | S k' => Z.min 60 (sleep_time - slept) :: slices k' sleep_time (slept + 60)
  end.





(** * The scraper: [_extract_course_data]

    The part of [selenium_scraper.py] that builds the dicts the agent
    reads, and with them the keys of the seen-set.  A Python [str] is a
    [string] here: the characters are those with a code point below
    256. *)

(** [s.split(sep)] for a separator of one character. *)
Fixpoint split_on (sep : ascii) (s : string) : list string :=
  match s with
  | EmptyString => [EmptyString]
  | String c rest =>
      if decide (c = sep) then EmptyString :: split_on sep rest
      else match split_on sep rest with
           | seg :: segs => String c seg :: segs
           | [] => [String c EmptyString]
           end
  end.

(** [l[-2]]; [None] stands for the IndexError. *)
Definition second_to_last {A} (l : list A) : option A := rev l !! 1%nat.

(** [pat in s]. *)
Fixpoint py_in (pat s : string) : bool :=
  String.prefix pat s ||
  match s with
  | EmptyString => false
  | String _ rest => py_in pat rest
  end.

(** [c.isspace()] for a character below 256. *)
Definition is_space (c : ascii) : bool :=
  bool_decide (nat_of_ascii c ∈ [9; 10; 11; 12; 13; 28; 29; 30; 31; 32; 133; 160]%nat).

Fixpoint lstrip (s : string) : string :=
  match s with
  | EmptyString => EmptyString
  | String c rest => if is_space c then lstrip rest else s
  end.

(** [s.strip()]. *)
Definition strip (s : string) : string :=
  String.rev (lstrip (String.rev (lstrip s))).

(** [len(s)]. *)
Definition str_len (s : string) : Z := Z.of_nat (String.length s).

(** The truth value of a [str]. *)
Definition nonempty (s : string) : bool :=
  match s with
  | EmptyString => false
  | String _ _ => true
  end.

(** What a link element answers; every read may raise. *)
Record card := Card {
  href : outcome (option string);             (* [get_attribute('href')] *)
  text : outcome string;                      (* [.text] *)
  title_attribute : outcome (option string);  (* [get_attribute('title')] *)
  parent_text : outcome string                (* [find_element(By.XPATH, '..').text] *)
}.

(** [url.split('/')[-2]]. *)
Definition id_of_url (url : string) : option string :=
  second_to_last (split_on "/" url).

(** [card_element.text.strip() or card_element.get_attribute('title')
    or "Unknown Title"]; the attribute is read only when the text is
    empty. *)
Definition first_title (c : card) : outcome string :=
  match text c with
  | Throws e => Throws e
  | Returns tx =>
      if nonempty (strip tx) then Returns (strip tx)
      else match title_attribute c with
           | Throws e => Throws e
           | Returns (Some t) => Returns (if nonempty t then t else "Unknown Title")
           | Returns None => Returns "Unknown Title"
           end
  end.

(** The dict returned, with the keys the agent reads, or [None]: for a
    missing or foreign link, and from the [except] clause of the
    method. *)
Definition _extract_course_data (c : card) : option course :=
  match href c with
  | Throws _ | Returns None => None
  | Returns (Some url) =>
      if negb (nonempty url) || negb (py_in "/course/" url) then None
      else
        match first_title c with
        | Throws _ => None
        | Returns title0 =>
            let title1 :=
              if bool_decide (str_len title0 < 10) then
                match parent_text c with
                | Returns pt => strip pt
                | Throws _ => title0       (* [except: pass] *)
                end
              else title0 in
            let title2 :=
              if nonempty title1 && bool_decide (100 < str_len title1)
              then String.substring 0 100 title1 +:+ "..."
              else title1 in
            match id_of_url url with
            | Some cid => Some (Course cid title2 url)
            | None => None
            end
        end
  end.

(** The loop over [course_cards[:10]] at the end of
    [get_free_programming_courses]; the url of a dict that was returned
    is not empty. *)
Definition cards_to_courses (cards : list card) : list course :=
  omap _extract_course_data (take 10 cards).

(** Does the character occur in the string? *)
Fixpoint occurs (c : ascii) (s : string) : bool :=
  match s with
  | EmptyString => false
  | String c' rest => bool_decide (c' = c) || occurs c rest
  end.

(** A link to a course page whose address does not end with a slash. *)
Definition open_link (c : card) : Prop :=
  ∃ base slug,
    href c = Returns (Some (base +:+ "/course/" +:+ slug)) ∧
    occurs "/" slug = false.

Definition link_a : card :=
  Card (Returns (Some "https://www.udemy.com/course/learn-python"))
    (Returns "  Learn Python from scratch  ") (Returns None) (Returns "").

Definition link_b : card :=
  Card (Returns (Some "https://www.udemy.com/course/learn-rust"))
    (Returns "Rust") (Returns None) (Throws WebDriverError).

(** * Properties *)

(** Symbolic execution of a method body on an agent given by its fields. *)
Ltac run_py :=
  cbv [bind try_except logger update_health update get call lift ret raise when
       send_notification bump_failures bump_errors
       add_effects add_logs with_log add_log add_effect
       set_last_successful_check set_health_status set_seen_courses
       set_consecutive_failures set_scraper set_status set_courses_found
       set_last_check set_emails_sent set_errors
       scraper seen_courses is_running last_successful_check
       consecutive_failures max_consecutive_failures health_check_interval
       restart_on_failure health_status log effects
       status last_check courses_found emails_sent errors start_time pid
       fst snd default from_option id negb andb].

Ltac unfold_closed :=
  cbv [cleaned completed completed_log completed_effects completed_health
       completed_failures seen_pruned seen_committed seen_notified delivered
       undelivered init_log init_effects interrupted ready].

Ltac same_agent :=
  unfold_closed; run_py;
  repeat match goal with
         | |- context [match courses_to_remove ?c ?m with _ => _ end] =>
             destruct (courses_to_remove c m) eqn:?
         end;
  repeat first [rewrite <- app_assoc | progress cbn [app]];
  rewrite ?app_nil_r; try reflexivity.

(** ** The diff loop in closed form *)

Lemma with_log_id a : with_log (log a) a = a.
Proof. by destruct a. Qed.

Lemma scan_one_eq w c acc a :
  scan_one w c acc a =
    (match pending_entry w (seen_courses a) c with
     | Ok e => Ok (if is_new (seen_courses a) c then acc.1 ++ [c] else acc.1,
                   <[course_id c := e]> acc.2)
     | Raise e => Raise e
     end,
     with_log (log a ++ one_log (seen_courses a) c) a).
Proof.
  unfold scan_one, pending_entry, existing_of, one_log, is_new, next_count.
  unfold bind, get, ret, logger, update, lift_result, raise, add_log, with_log.
  destruct a as [sc seen run lsc cf mx hci rof hs lg eff]; simpl.
  destruct (seen !! course_id c) as [[m|]|] eqn:E; simpl;
    [destruct (seen_count m) as [[n|]|]; simpl | |];
    rewrite ?E, ?app_nil_r; reflexivity.
Qed.

Lemma scan_eq w courses : ∀ acc a,
  scan w courses acc a =
    (scan_result w (seen_courses a) courses acc,
     with_log (log a ++ scan_log w (seen_courses a) courses) a).
Proof.
  induction courses as [|c rest IH]; intros acc a; simpl.
  - unfold ret. by rewrite app_nil_r, with_log_id.
  - unfold bind. rewrite scan_one_eq.
    destruct (pending_entry w (seen_courses a) c) as [e|e].
    + rewrite IH. simpl. unfold with_log; simpl. by rewrite <- app_assoc.
    + by rewrite app_nil_r.
Qed.

Lemma scan_result_new w seen courses : ∀ acc r,
  scan_result w seen courses acc = Ok r →
  r.1 = acc.1 ++ new_courses_of seen courses.
Proof.
  induction courses as [|c rest IH]; intros acc r H; simpl in H.
  - inversion H; subst. unfold new_courses_of. by rewrite app_nil_r.
  - destruct (pending_entry w seen c) as [e|e]; [|done].
    apply IH in H. rewrite H. simpl. unfold new_courses_of, is_new.
    rewrite filter_cons. case_bool_decide; case_decide; try done.
    by rewrite <- app_assoc.
Qed.

Lemma scan_result_lookup w seen courses : ∀ acc r k e,
  scan_result w seen courses acc = Ok r →
  r.2 !! k = Some e →
  (acc.2 !! k = Some e ∧ k ∉ course_id <$> courses)
  ∨ ∃ c, c ∈ courses ∧ course_id c = k ∧ pending_entry w seen c = Ok e.
Proof.
  induction courses as [|c rest IH]; intros acc r k e H Hk; simpl in H.
  - inversion H; subst. left. split; [done|]. simpl. apply not_elem_of_nil.
  - destruct (pending_entry w seen c) as [e0|e0] eqn:Ep; [|done].
    destruct (IH _ _ _ _ H Hk) as [[Ha Hn]|(c' & Hin & Hid & Hp)];
      cbn [fst snd] in *.
    + destruct (decide (k = course_id c)) as [->|Hne].
      * rewrite lookup_insert_eq in Ha. inversion Ha; subst.
        right. exists c. split; [apply list_elem_of_here | done].
      * rewrite lookup_insert_ne in Ha by done.
        left. split; [done|]. rewrite fmap_cons, not_elem_of_cons. by split.
    + right. exists c'. split; [by apply list_elem_of_further | done].
Qed.

Lemma scan_result_dom w seen courses : ∀ acc r c,
  scan_result w seen courses acc = Ok r →
  c ∈ courses → is_Some (r.2 !! course_id c).
Proof.
  assert (Hkeep : ∀ cs acc r k,
            scan_result w seen cs acc = Ok r →
            is_Some (acc.2 !! k) → is_Some (r.2 !! k)).
  { induction cs as [|c rest IH]; intros acc r k H Hs; simpl in H.
    - by inversion H; subst.
    - destruct (pending_entry w seen c) as [e|e]; [|done].
      eapply IH; [exact H|]. cbn [fst snd].
      destruct (decide (k = course_id c)) as [->|Hne].
      + rewrite lookup_insert_eq. by eexists.
      + by rewrite lookup_insert_ne. }
  induction courses as [|c0 rest IH]; intros acc r c H Hin; simpl in H.
  - by apply elem_of_nil in Hin.
  - destruct (pending_entry w seen c0) as [e|e]; [|done].
    apply elem_of_cons in Hin as [->|Hin].
    + eapply Hkeep; [exact H|]. cbn [fst snd]. rewrite lookup_insert_eq. by eexists.
    + eapply IH; [exact H | done].
Qed.

Lemma scan_result_entries w seen courses : ∀ acc r c,
  scan_result w seen courses acc = Ok r →
  c ∈ courses → ∃ e, pending_entry w seen c = Ok e.
Proof.
  induction courses as [|c0 rest IH]; intros acc r c H Hin; simpl in H.
  - by apply elem_of_nil in Hin.
  - destruct (pending_entry w seen c0) as [e|e] eqn:Ep; [|done].
    apply elem_of_cons in Hin as [->|Hin]; [by exists e|].
    eapply IH; [exact H | done].
Qed.

Lemma scan_result_total w seen courses : ∀ acc,
  (∀ c, c ∈ courses → ∃ e, pending_entry w seen c = Ok e) →
  ∃ r, scan_result w seen courses acc = Ok r.
Proof.
  induction courses as [|c0 rest IH]; intros acc Hall; simpl.
  - by eexists.
  - destruct (Hall c0) as [e ->]; [apply list_elem_of_here|].
    apply IH. intros c Hc. apply Hall. by apply list_elem_of_further.
Qed.

(** Every exception of the loop is the TypeError of [next_count]. *)
Lemma scan_result_raise w seen courses : ∀ acc e,
  scan_result w seen courses acc = Raise e → e = TypeError.
Proof.
  induction courses as [|c rest IH]; intros acc e H; simpl in H; [done|].
  destruct (pending_entry w seen c) as [e0|e0] eqn:Ep; [by eapply IH|].
  inversion H; subst. unfold pending_entry, next_count in Ep.
  destruct (default _ _); by inversion Ep.
Qed.

(** ** Committing and pruning, by lookup *)

Lemma lookup_commit_existing current seen k :
  commit_existing current seen !! k =
    match seen !! k with
    | Some v => Some (match current !! k with Some m => Meta m | None => v end)
    | None => None
    end.
Proof.
  unfold commit_existing. revert k.
  apply (map_fold_weak_ind (λ r cur, ∀ k, r !! k =
    match seen !! k with
    | Some v => Some (match cur !! k with Some m => Meta m | None => v end)
    | None => None
    end)).
  - intros k. rewrite lookup_empty. by destruct (seen !! k).
  - intros i x m r Hi IH k.
    pose proof (IH i) as Hri.
    destruct (decide (i = k)) as [->|Hne].
    + rewrite lookup_insert_eq.
      destruct (seen !! k) eqn:Es.
      * rewrite Hri. by rewrite lookup_insert_eq.
      * by rewrite Hri, IH, Es.
    + rewrite (lookup_insert_ne m) by done.
      destruct (r !! i); [rewrite lookup_insert_ne by done|]; apply IH.
Qed.

Lemma lookup_commit_new current new_courses : ∀ seen k,
  commit_new new_courses current seen !! k =
    if bool_decide (k ∈ course_id <$> new_courses) then
      match current !! k with
      | Some m => Some (Meta m)
      | None => seen !! k
      end
    else seen !! k.
Proof.
  unfold commit_new.
  induction new_courses as [|c rest IH]; intros seen k; cbn [foldl].
  - rewrite bool_decide_eq_false_2; [done | apply not_elem_of_nil].
  - rewrite IH. rewrite fmap_cons.
    destruct (decide (k = course_id c)) as [->|Hne].
    + rewrite (bool_decide_eq_true_2 (_ ∈ _ :: _)) by apply list_elem_of_here.
      destruct (current !! course_id c) eqn:Ec.
      * rewrite lookup_insert_eq. by case_bool_decide.
      * by case_bool_decide.
    + assert (Hsame : match current !! course_id c with
                      | Some m => <[course_id c:=Meta m]> seen
                      | None => seen
                      end !! k = seen !! k).
      { destruct (current !! course_id c); [by rewrite lookup_insert_ne|done]. }
      rewrite Hsame.
      case_bool_decide as H1; case_bool_decide as H2; try done.
      * exfalso. apply H2. by apply list_elem_of_further.
      * exfalso. apply elem_of_cons in H2 as [?|?]; done.
Qed.

Lemma lookup_foldr_delete (ks : list string) (m : gmap string stored) k :
  foldr delete m ks !! k = if bool_decide (k ∈ ks) then None else m !! k.
Proof.
  induction ks as [|k0 ks IH]; cbn [foldr].
  - rewrite bool_decide_eq_false_2; [done | apply not_elem_of_nil].
  - destruct (decide (k0 = k)) as [->|Hne].
    + rewrite lookup_delete_eq.
      by rewrite bool_decide_eq_true_2 by apply list_elem_of_here.
    + rewrite lookup_delete_ne by done. rewrite IH.
      case_bool_decide as H1; case_bool_decide as H2; try done.
      * exfalso. apply H2. by apply list_elem_of_further.
      * exfalso. apply elem_of_cons in H2 as [?|?]; done.
Qed.

Lemma elem_of_courses_to_remove cutoff seen k :
  k ∈ courses_to_remove cutoff seen ↔
  ∃ v, seen !! k = Some v ∧ to_remove cutoff v = true.
Proof.
  unfold courses_to_remove. rewrite list_elem_of_fmap. split.
  - intros ([k' v] & -> & Hin). apply list_elem_of_filter in Hin as [Hr Hin].
    apply elem_of_map_to_list in Hin. by exists v.
  - intros (v & Hs & Hr). exists (k, v). split; [done|].
    apply list_elem_of_filter. split; [done|]. by apply elem_of_map_to_list.
Qed.

Lemma lookup_prune cutoff seen k :
  prune cutoff seen !! k =
    match seen !! k with
    | Some v => if to_remove cutoff v then None else Some v
    | None => None
    end.
Proof.
  unfold prune. rewrite lookup_foldr_delete.
  case_bool_decide as H.
  - apply elem_of_courses_to_remove in H as (v & -> & ->). done.
  - destruct (seen !! k) as [v|] eqn:Es; [|done].
    destruct (to_remove cutoff v) eqn:Er; [|done].
    exfalso. apply H. apply elem_of_courses_to_remove. by exists v.
Qed.

(** ** One cycle in closed form *)

Lemma _save_seen_courses_eq w m a :
  _save_seen_courses w m a =
    (Ok tt, add_effects [WriteSeen m (disk_ok w)] (add_logs (save_log w m) a)).
Proof.
  unfold _save_seen_courses, save_log.
  destruct a; destruct (disk_ok w); reflexivity.
Qed.

Lemma _cleanup_old_courses_eq w a :
  _cleanup_old_courses w a = (Ok tt, cleaned w a).
Proof.
  unfold _cleanup_old_courses, cleaned, prune, cutoff_date.
  unfold bind, get, update, logger, ret.
  destruct (courses_to_remove _ (seen_courses a)) as [|k ks] eqn:E; simpl; [done|].
  rewrite _save_seen_courses_eq. destruct a; simpl.
  unfold add_effects, add_logs, with_log; simpl.
  by rewrite <- !app_assoc.
Qed.

Lemma check_body_eq w a : check_body w a = body_outcome w a.
Proof.
  unfold check_body, body_outcome.
  destruct a as [sc seen run lsc cf mx hci rof hs lg eff].
  destruct hs as [st lc fnd sent errs stt pd].
  unfold_closed. run_py.
  destruct sc as [s0|]; [|destruct (create_scraper w) as [s0|e]].
  all: try (same_agent; fail).
  all: destruct (fetch w) as [[l|]|e]; try (same_agent; fail).
  all: run_py; rewrite scan_eq; run_py.
  all: destruct (scan_result _ seen _ ([], ∅)) as [[news cur]|e]; run_py.
  all: try (same_agent; fail).
  all: destruct news as [|c0 news]; run_py.
  all: try destruct (smtp_ok w).
  all: do 3 (rewrite ?_save_seen_courses_eq, ?_cleanup_old_courses_eq; run_py).
  all: same_agent.
Qed.

(** ** The [except] clause and [_restart_scraper] in closed form *)

Lemma _restart_scraper_eq w a : _restart_scraper w a = (Ok tt, restarted w a).
Proof.
  unfold _restart_scraper, restarted, restart_result, restart_effects.
  destruct a as [sc seen run lsc cf mx hci rof hs lg eff]. run_py.
  destruct sc as [s0|]; [destruct (quit_driver w) as [[]|e]|];
    run_py; try destruct (recreate_scraper w); run_py;
    rewrite <- ?app_assoc; reflexivity.
Qed.

Lemma check_handler_eq w e a : check_handler w e a = (Ok false, failed w e a).
Proof.
  unfold check_handler, failed, restart_due, counted.
  destruct a as [sc seen run lsc cf mx hci rof hs lg eff].
  destruct hs as [st lc fnd sent errs stt pd]. run_py.
  destruct rof; [case_bool_decide|]; run_py; try reflexivity.
  rewrite _restart_scraper_eq. run_py. reflexivity.
Qed.

Lemma check_for_new_courses_eq w a :
  check_for_new_courses w a = (Ok (cycle w a).1, (cycle w a).2).
Proof.
  unfold check_for_new_courses, try_except, cycle.
  rewrite check_body_eq.
  destruct (body_outcome w a) as [[b|e] a']; [done|].
  by rewrite check_handler_eq.
Qed.

(** ** What a cycle leaves behind *)

Lemma body_outcome_raise w a e a1 :
  body_outcome w a = (Raise e, a1) → a1 = interrupted w a.
Proof.
  unfold body_outcome. intros H.
  destruct (ready w a); [destruct (fetch w); [destruct (scan_result _ _ _ _)|]|];
    by inversion H.
Qed.

Lemma body_outcome_ok w a b a1 :
  body_outcome w a = (Ok b, a1) →
  b = true ∧
  ∃ s fetched new_courses current,
    ready w a = Returns s ∧ fetch w = Returns fetched ∧
    scan_result w (seen_courses a) (default [] fetched) ([], ∅)
      = Ok (new_courses, current) ∧
    a1 = completed w a s fetched new_courses current.
Proof.
  unfold body_outcome. intros H.
  destruct (ready w a) as [s|]; [|by inversion H].
  destruct (fetch w) as [fetched|]; [|by inversion H].
  destruct (scan_result _ _ _ _) as [[news cur]|] eqn:E; inversion H; subst.
  split; [done|]. by exists s, fetched, news, cur.
Qed.

Lemma check_for_new_courses_completed w a a' :
  check_for_new_courses w a = (Ok true, a') →
  ∃ s fetched new_courses current,
    ready w a = Returns s ∧ fetch w = Returns fetched ∧
    scan_result w (seen_courses a) (default [] fetched) ([], ∅)
      = Ok (new_courses, current) ∧
    a' = completed w a s fetched new_courses current.
Proof.
  rewrite check_for_new_courses_eq. unfold cycle.
  destruct (body_outcome w a) as [[b|e] a1] eqn:E; simpl; intros H;
    inversion H; subst.
  by apply body_outcome_ok in E as [_ ?].
Qed.

Lemma completed_check_for_new_courses w a s fetched new_courses current :
  ready w a = Returns s → fetch w = Returns fetched →
  scan_result w (seen_courses a) (default [] fetched) ([], ∅)
    = Ok (new_courses, current) →
  check_for_new_courses w a
    = (Ok true, completed w a s fetched new_courses current).
Proof.
  intros Hr Hf Hs. rewrite check_for_new_courses_eq. unfold cycle, body_outcome.
  by rewrite Hr, Hf, Hs.
Qed.

(** The state at the point of the exception: the counters and the seen-set
    are as they were before the call. *)
Lemma interrupted_fields w a :
  seen_courses (interrupted w a) = seen_courses a ∧
  consecutive_failures (interrupted w a) = consecutive_failures a ∧
  max_consecutive_failures (interrupted w a) = max_consecutive_failures a ∧
  restart_on_failure (interrupted w a) = restart_on_failure a ∧
  errors (health_status (interrupted w a)) = errors (health_status a) ∧
  last_successful_check (interrupted w a) = last_successful_check a.
Proof.
  unfold interrupted.
  destruct (ready w a); [destruct (fetch w)|]; by repeat split.
Qed.

Lemma restart_due_interrupted w a :
  restart_due (interrupted w a) = restart_due a.
Proof.
  unfold restart_due.
  destruct (interrupted_fields w a) as (_ & -> & -> & -> & _). done.
Qed.

Lemma restarted_fields w a :
  seen_courses (restarted w a) = seen_courses a ∧
  health_status (restarted w a) = health_status a ∧
  max_consecutive_failures (restarted w a) = max_consecutive_failures a ∧
  restart_on_failure (restarted w a) = restart_on_failure a ∧
  last_successful_check (restarted w a) = last_successful_check a.
Proof.
  unfold restarted. by destruct (restart_result w a).
Qed.

Lemma failed_fields w e a :
  seen_courses (failed w e a) = seen_courses a ∧
  status (health_status (failed w e a)) = Error ∧
  errors (health_status (failed w e a)) = errors (health_status a) + 1 ∧
  max_consecutive_failures (failed w e a) = max_consecutive_failures a ∧
  restart_on_failure (failed w e a) = restart_on_failure a ∧
  last_successful_check (failed w e a) = last_successful_check a.
Proof.
  unfold failed. destruct (restart_due a); [|by repeat split].
  destruct (restarted_fields w
              (add_logs [(ERROR, MTooMany (consecutive_failures a + 1))]
                 (counted e a))) as (-> & -> & -> & -> & ->).
  by repeat split.
Qed.

Lemma failed_log w e a :
  log (failed w e a) =
    log a ++ (ERROR, MCheckError e) ::
    if restart_due a then
      [(ERROR, MTooMany (consecutive_failures a + 1));
       match restart_result w a with
       | Returns _ => (INFO, MRestarted)
       | Throws e' => (ERROR, MRestartFailed e')
       end]
    else [].
Proof.
  unfold failed, restarted, restart_result.
  destruct (restart_due a); [|reflexivity]. simpl.
  destruct (scraper a); [destruct (quit_driver w)|];
    try destruct (recreate_scraper w); simpl; by rewrite <- !app_assoc.
Qed.

Lemma failed_consecutive_failures w e a :
  consecutive_failures (failed w e a) =
    if restart_due a then
      match restart_result w a with
      | Returns _ => 0
      | Throws _ => consecutive_failures a + 1
      end
    else consecutive_failures a + 1.
Proof.
  unfold failed, restarted, restart_result.
  destruct (restart_due a); [|reflexivity]. simpl.
  destruct (scraper a); [destruct (quit_driver w)|];
    try destruct (recreate_scraper w); reflexivity.
Qed.

Lemma failed_scraper w e a s :
  restart_due a = true → restart_result w a = Returns s →
  scraper (failed w e a) = Some s.
Proof.
  intros Hdue Hr. unfold failed, restarted. rewrite Hdue.
  change (restart_result w
            (add_logs [(ERROR, MTooMany (consecutive_failures a + 1))]
               (counted e a)))
    with (restart_result w a).
  by rewrite Hr.
Qed.

(** ** Exception containment *)

(** C7. A call of [check_for_new_courses] always returns: when its body
    raises, the exception is caught and logged, the status becomes
    [error], the error counter grows by one and the call returns [False];
    otherwise it returns [True]. *)
Theorem check_for_new_courses_contains_exceptions (w : world) (a : agent) :
  ∃ b a',
    check_for_new_courses w a = (Ok b, a') ∧
    match check_body w a with
    | (Raise e, _) =>
        b = false ∧
        status (health_status a') = Error ∧
        errors (health_status a') = errors (health_status a) + 1 ∧
        (ERROR, MCheckError e) ∈ log a'
    | (Ok _, _) => b = true
    end.
Proof.
  exists (cycle w a).1, (cycle w a).2.
  split; [apply check_for_new_courses_eq|].
  rewrite check_body_eq. unfold cycle.
  destruct (body_outcome w a) as [[b|e] a1] eqn:E; simpl.
  - by apply body_outcome_ok in E as [-> _].
  - apply body_outcome_raise in E as ->.
    destruct (failed_fields w e (interrupted w a)) as (_ & -> & -> & _).
    destruct (interrupted_fields w a) as (_ & _ & _ & _ & -> & _).
    repeat split. rewrite failed_log.
    apply elem_of_app. right. apply list_elem_of_here.
Qed.

(** ** Reading the trace of outside calls *)

Lemma notifications_app l1 l2 :
  notifications (l1 ++ l2) = notifications l1 ++ notifications l2.
Proof. apply omap_app. Qed.

Lemma writes_app l1 l2 : writes (l1 ++ l2) = writes l1 ++ writes l2.
Proof. apply omap_app. Qed.

Lemma writes_init_effects a : writes (init_effects a) = [].
Proof. unfold init_effects. by destruct (scraper a). Qed.

Lemma notifications_init_effects a : notifications (init_effects a) = [].
Proof. unfold init_effects. by destruct (scraper a). Qed.

Lemma writes_completed w a new_courses current :
  writes (completed_effects w a new_courses current) =
    (if delivered w new_courses
     then [(seen_notified w a new_courses current, disk_ok w)] else [])
    ++ (seen_committed w a new_courses current, disk_ok w) ::
    match courses_to_remove (cutoff_date w) (seen_committed w a new_courses current) with
    | [] => []
    | _ :: _ => [(seen_pruned w a new_courses current, disk_ok w)]
    end.
Proof.
  unfold completed_effects, delivered.
  rewrite !writes_app, writes_init_effects.
  destruct new_courses as [|c news]; [|destruct (smtp_ok w)];
    destruct (courses_to_remove _ _); reflexivity.
Qed.

Lemma notifications_completed w a new_courses current :
  notifications (completed_effects w a new_courses current) =
    match new_courses with
    | [] => []
    | _ :: _ => [new_courses]
    end.
Proof.
  unfold completed_effects.
  rewrite !notifications_app, notifications_init_effects.
  destruct new_courses as [|c news]; [|destruct (smtp_ok w)];
    destruct (courses_to_remove _ _); reflexivity.
Qed.

(** ** Graceful fetch degradation *)

Lemma commit_existing_empty seen : commit_existing ∅ seen = seen.
Proof. unfold commit_existing. apply map_fold_empty. Qed.

(** A cycle whose fetch brought nothing. *)
Lemma empty_fetch_cycle w a s fetched :
  ready w a = Returns s → fetch w = Returns fetched → default [] fetched = [] →
  check_for_new_courses w a = (Ok true, completed w a s fetched [] ∅).
Proof.
  intros Hr Hf He. apply completed_check_for_new_courses; [done..|].
  by rewrite He.
Qed.

(** C8. When the scraper returns [None] the cycle runs as it does on an
    empty list, up to the warning it logs: it is not aborted, it returns
    [True], the status is [healthy], no error or failure is counted, the
    notifier is not called and the seen-set is only pruned. *)
Theorem none_fetch_is_an_empty_fetch (w : world) (a : agent) (s : scraper_t) :
  ready w a = Returns s →
  fetch w = Returns None →
  let r := check_for_new_courses w a in
  let r0 := check_for_new_courses (with_fetch (Returns (Some [])) w) a in
  r.1 = Ok true ∧ r0.1 = Ok true ∧
  with_log [] r.2 = with_log [] r0.2 ∧
  status (health_status r.2) = Healthy ∧
  errors (health_status r.2) = errors (health_status a) ∧
  consecutive_failures r.2 = consecutive_failures a ∧
  courses_found (health_status r.2) = courses_found (health_status a) ∧
  notifications (effects r.2) = notifications (effects a) ∧
  seen_courses r.2 = prune (cutoff_date w) (seen_courses a).
Proof.
  intros Hr Hf r r0. subst r r0.
  rewrite (empty_fetch_cycle w a s None Hr Hf eq_refl).
  rewrite (empty_fetch_cycle (with_fetch (Returns (Some [])) w) a s (Some []));
    [|done..].
  cbn [fst snd].
  split; [done|]. split; [done|]. split; [reflexivity|].
  split; [done|]. split; [done|]. split; [done|].
  split; [|split].
  - unfold completed, completed_health, len; cbn. lia.
  - unfold completed; cbn [effects].
    by rewrite notifications_app, notifications_completed, app_nil_r.
  - unfold completed, seen_pruned, seen_committed, seen_notified; cbn.
    by rewrite commit_existing_empty.
Qed.

(** ** Persistence schedule *)

(** C9. A call that reaches the end of its body hands the seen-set to
    the store after committing the pending entries of the diff loop,
    whether or not anything changed (after an earlier write when a
    notification was delivered), and once more after pruning exactly
    when pruning removed an entry; each of these writes goes through
    when the file can be written. *)
Theorem persistence_schedule (w : world) (a a' : agent) :
  check_for_new_courses w a = (Ok true, a') →
  ∃ fetched new_courses current,
    let committed := seen_committed w a new_courses current in
    fetch w = Returns fetched ∧
    (scan w (default [] fetched) ([], ∅) a).1 = Ok (new_courses, current) ∧
    seen_courses a' = prune (cutoff_date w) committed ∧
    writes (effects a') =
      writes (effects a)
      ++ (if delivered w new_courses
          then [(seen_notified w a new_courses current, disk_ok w)] else [])
      ++ (committed, disk_ok w) ::
         match courses_to_remove (cutoff_date w) committed with
         | [] => []
         | _ :: _ => [(seen_courses a', disk_ok w)]
         end.
Proof.
  intros H.
  apply check_for_new_courses_completed in H
    as (s & fetched & news & cur & Hr & Hf & Hs & ->).
  exists fetched, news, cur. split; [done|]. split; [by rewrite scan_eq, Hs|].
  split; [reflexivity|].
  unfold completed; cbn [effects seen_courses].
  by rewrite writes_app, writes_completed.
Qed.

(** ** The seen-set after a completed cycle, by lookup *)

Lemma pending_entry_fields w seen c e :
  pending_entry w seen c = Ok e →
  last_seen e = Some (TNaive (now w)) ∧
  first_seen e =
    Some (default (TNaive (now w)) (first_seen (existing_of seen (course_id c)))) ∧
  ∃ count, next_count (existing_of seen (course_id c)) = Ok count ∧
           seen_count e = Some count.
Proof.
  unfold pending_entry.
  destruct (next_count _) as [count|]; intros H; inversion H; subst; simpl.
  split; [done|]. split; [done|]. by exists count.
Qed.

Lemma scan_result_facts w seen courses new_courses current :
  scan_result w seen courses ([], ∅) = Ok (new_courses, current) →
  new_courses = new_courses_of seen courses ∧
  (∀ k, is_Some (current !! k) ↔ k ∈ course_id <$> courses) ∧
  (∀ k e, current !! k = Some e →
     last_seen e = Some (TNaive (now w)) ∧
     first_seen e =
       Some (default (TNaive (now w)) (first_seen (existing_of seen k))) ∧
     ∃ count, next_count (existing_of seen k) = Ok count ∧
              seen_count e = Some count).
Proof.
  intros H. split; [|split].
  - by apply scan_result_new in H.
  - intros k. split.
    + intros [e He].
      destruct (scan_result_lookup _ _ _ _ _ _ _ H He)
        as [[Hemp _]|(c & Hin & <- & _)].
      * cbn [snd] in Hemp. by rewrite lookup_empty in Hemp.
      * apply list_elem_of_fmap. by exists c.
    + intros Hin. apply list_elem_of_fmap in Hin as (c & -> & Hin).
      by apply (scan_result_dom _ _ _ _ _ _ H).
  - intros k e He.
    destruct (scan_result_lookup _ _ _ _ _ _ _ H He)
      as [[Hemp _]|(c & Hin & <- & Hp)].
    + cbn [snd] in Hemp. by rewrite lookup_empty in Hemp.
    + by apply pending_entry_fields.
Qed.

Lemma days_30_pos : 0 < days 30.
Proof. unfold days. lia. Qed.

(** An entry stamped in this cycle is not pruned in this cycle. *)
Lemma to_remove_fresh w e :
  last_seen e = Some (TNaive (now w)) → to_remove (cutoff_date w) (Meta e) = false.
Proof.
  intros H. unfold to_remove, cutoff_date. rewrite H. simpl.
  apply bool_decide_eq_false_2. pose proof days_30_pos. lia.
Qed.

Lemma elem_of_new_courses_ids seen courses k :
  k ∈ course_id <$> new_courses_of seen courses ↔
  k ∈ course_id <$> courses ∧ seen !! k = None.
Proof.
  unfold new_courses_of. rewrite !list_elem_of_fmap. split.
  - intros (c & -> & Hin). apply list_elem_of_filter in Hin as [Hn Hin].
    split; [by exists c | done].
  - intros [(c & -> & Hin) Hn]. exists c. split; [done|].
    by apply list_elem_of_filter.
Qed.

Lemma lookup_completed w a s fetched new_courses current k :
  scan_result w (seen_courses a) (default [] fetched) ([], ∅)
    = Ok (new_courses, current) →
  seen_courses (completed w a s fetched new_courses current) !! k =
    match current !! k with
    | Some e =>
        match seen_courses a !! k with
        | Some _ => Some (Meta e)
        | None => if delivered w new_courses then Some (Meta e) else None
        end
    | None =>
        match seen_courses a !! k with
        | Some v => if to_remove (cutoff_date w) v then None else Some v
        | None => None
        end
    end.
Proof.
  intros H.
  destruct (scan_result_facts _ _ _ _ _ H) as (Hnew & Hdom & Hent).
  unfold completed, seen_pruned, seen_committed, seen_notified.
  cbn [seen_courses].
  rewrite lookup_prune, lookup_commit_existing.
  assert (Hn : (if delivered w new_courses
                then commit_new new_courses current (seen_courses a)
                else seen_courses a) !! k =
               match seen_courses a !! k with
               | Some v => Some v
               | None =>
                   match current !! k with
                   | Some e => if delivered w new_courses
                               then Some (Meta e) else None
                   | None => None
                   end
               end).
  { destruct (delivered w new_courses).
    - rewrite lookup_commit_new, Hnew.
      case_bool_decide as Hk.
      + apply elem_of_new_courses_ids in Hk as [Hk ->].
        apply Hdom in Hk as [e ->]. done.
      + destruct (seen_courses a !! k) as [v|] eqn:Es; [done|].
        destruct (current !! k) as [e|] eqn:Ec; [|done].
        exfalso. apply Hk. apply elem_of_new_courses_ids.
        split; [|done]. apply Hdom. by eexists.
    - destruct (seen_courses a !! k); [done|]. by destruct (current !! k). }
  rewrite Hn. clear Hn.
  destruct (current !! k) as [e|] eqn:Ec.
  - destruct (Hent _ _ Ec) as (Hls & _).
    destruct (seen_courses a !! k) as [v|];
      [|destruct (delivered w new_courses); [|done]];
      by rewrite (to_remove_fresh _ _ Hls).
  - by destruct (seen_courses a !! k).
Qed.

(** ** At-least-once delivery *)

Lemma elem_of_new_courses_of seen courses c :
  c ∈ new_courses_of seen courses ↔ c ∈ courses ∧ seen !! course_id c = None.
Proof.
  unfold new_courses_of. rewrite list_elem_of_filter. tauto.
Qed.

Lemma delivered_false w new_courses :
  smtp_ok w = false → delivered w new_courses = false.
Proof. intros H. unfold delivered. by destruct new_courses. Qed.

(** A completed call whose notifier returned [False]. *)
Lemma notifier_failure_commits_only_seen
    (w : world) (a a' : agent) (courses : list course) (x : course) :
  fetch w = Returns (Some courses) →
  check_for_new_courses w a = (Ok true, a') →
  x ∈ new_courses_of (seen_courses a) courses →
  smtp_ok w = false →
  notifications (effects a')
    = notifications (effects a) ++ [new_courses_of (seen_courses a) courses] ∧
  seen_courses a' !! course_id x = None ∧
  (∃ ms, writes (effects a') = writes (effects a) ++ ms ∧
         ∀ m ok, (m, ok) ∈ ms → m !! course_id x = None) ∧
  (∀ c, c ∈ courses → is_Some (seen_courses a !! course_id c) →
     ∃ e count,
       seen_courses a' !! course_id c = Some (Meta e) ∧
       last_seen e = Some (TNaive (now w)) ∧
       next_count (existing_of (seen_courses a) (course_id c)) = Ok count ∧
       seen_count e = Some count) ∧
  (∀ w' a'' courses',
     fetch w' = Returns (Some courses') → x ∈ courses' →
     check_for_new_courses w' a' = (Ok true, a'') →
     ∃ batch, x ∈ batch ∧
              notifications (effects a'') = notifications (effects a') ++ [batch]).
Proof.
  intros Hf H Hx Hsmtp.
  apply check_for_new_courses_completed in H
    as (s & fetched & news & cur & Hr & Hf' & Hs & ->).
  rewrite Hf in Hf'. inversion Hf'; subst fetched. pose proof Hs as Hs0.
  change (default [] (Some courses)) with courses in Hs.
  destruct (scan_result_facts _ _ _ _ _ Hs) as (Hnew & Hdom & Hent).
  apply elem_of_new_courses_of in Hx as Hx'. destruct Hx' as [Hxin Hxnone].
  assert (Hxcur : is_Some (cur !! course_id x)).
  { apply Hdom, list_elem_of_fmap. by exists x. }
  assert (Hgone : seen_courses (completed w a s (Some courses) news cur)
                    !! course_id x = None).
  { rewrite (lookup_completed _ _ _ _ _ _ _ Hs0), Hxnone.
    rewrite (delivered_false _ _ Hsmtp). by destruct (cur !! course_id x). }
  split; [|split; [exact Hgone|split; [|split]]].
  - unfold completed; cbn [effects].
    rewrite notifications_app, notifications_completed, <- Hnew.
    assert (Hxn : x ∈ news) by (by rewrite Hnew).
    destruct news; [by apply elem_of_nil in Hxn | done].
  - eexists. split.
    + unfold completed; cbn [effects]. by rewrite writes_app, writes_completed.
    + rewrite (delivered_false _ _ Hsmtp). cbn [app].
      assert (Hc : seen_committed w a news cur !! course_id x = None).
      { unfold seen_committed, seen_notified.
        rewrite (delivered_false _ _ Hsmtp), lookup_commit_existing.
        by rewrite Hxnone. }
      assert (Hp : seen_pruned w a news cur !! course_id x = None).
      { unfold seen_pruned. by rewrite lookup_prune, Hc. }
      intros m ok Hm. apply elem_of_cons in Hm as [Hm|Hm];
        [by inversion Hm; subst|].
      destruct (courses_to_remove _ _); [by apply elem_of_nil in Hm|].
      apply list_elem_of_singleton in Hm. by inversion Hm; subst.
  - intros c Hc [v Hv].
    assert (Hccur : is_Some (cur !! course_id c)).
    { apply Hdom, list_elem_of_fmap. by exists c. }
    destruct Hccur as [e He].
    destruct (Hent _ _ He) as (Hls & _ & count & Hcount & Hsc).
    exists e, count.
    by rewrite (lookup_completed _ _ _ _ _ _ _ Hs0), He, Hv.
  - intros w' a'' courses' Hfw' Hxin' H'.
    apply check_for_new_courses_completed in H'
      as (s' & fetched' & news' & cur' & Hr' & Hf'' & Hs' & ->).
    rewrite Hfw' in Hf''. inversion Hf''; subst fetched'.
    change (default [] (Some courses')) with courses' in Hs'.
    destruct (scan_result_facts _ _ _ _ _ Hs') as (Hnew' & _ & _).
    exists news'. split.
    + rewrite Hnew'. by apply elem_of_new_courses_of.
    + unfold completed at 1; cbn [effects].
      rewrite notifications_app, notifications_completed.
      destruct news' as [|c' rest] eqn:En; [|done].
      exfalso. assert (Hin : x ∈ new_courses_of
                 (seen_courses (completed w a s (Some courses) news cur)) courses')
        by by apply elem_of_new_courses_of.
      rewrite <- Hnew' in Hin. by apply elem_of_nil in Hin.
Qed.

Lemma notifications_restart_effects w a :
  notifications (restart_effects w a) = [].
Proof.
  unfold restart_effects. destruct (scraper a); [destruct (quit_driver w)|]; done.
Qed.

Lemma notifications_interrupted w a :
  notifications (effects (interrupted w a)) = notifications (effects a).
Proof.
  unfold interrupted.
  destruct (ready w a); [destruct (fetch w)|]; cbn [effects];
    rewrite !notifications_app, ?notifications_init_effects;
    by rewrite ?app_nil_r.
Qed.

Lemma notifications_failed w e a :
  notifications (effects (failed w e a)) = notifications (effects a).
Proof.
  unfold failed, restarted. destruct (restart_due a); [|done].
  destruct (restart_result w _); cbn [effects add_effects];
    change (restart_effects w
              (add_logs [(ERROR, MTooMany (consecutive_failures a + 1))]
                 (counted e a)))
      with (restart_effects w a);
    by rewrite notifications_app, notifications_restart_effects, app_nil_r.
Qed.

Lemma app_singleton_inv {A} (l : list A) (x : A) : l ≠ l ++ [x].
Proof.
  intros H. apply (f_equal length) in H. rewrite length_app in H.
  cbn in H. lia.
Qed.

(** C1. When, in a call, the notifier is handed a batch that contains
    [x] and returns [False], the call still returns [True]; [x] is absent
    from the seen-set afterwards and from every seen-set handed to the
    store during the call; the batch is the new items of the fetched
    list, and the entries of the fetched items that were already seen are
    committed with [last_seen] set to now and [seen_count] incremented;
    and a next call that completes and whose fetch still contains [x]
    hands [x] to the notifier again. *)
Theorem undelivered_item_is_not_committed
    (w : world) (a : agent) (batch : list course) (x : course) :
  let a' := (check_for_new_courses w a).2 in
  notifications (effects a') = notifications (effects a) ++ [batch] →
  x ∈ batch →
  smtp_ok w = false →
  (check_for_new_courses w a).1 = Ok true ∧
  seen_courses a' !! course_id x = None ∧
  (∃ ms, writes (effects a') = writes (effects a) ++ ms ∧
         ∀ m ok, (m, ok) ∈ ms → m !! course_id x = None) ∧
  (∃ courses,
     fetch w = Returns (Some courses) ∧
     batch = new_courses_of (seen_courses a) courses ∧
     ∀ c, c ∈ courses → is_Some (seen_courses a !! course_id c) →
       ∃ e count,
         seen_courses a' !! course_id c = Some (Meta e) ∧
         last_seen e = Some (TNaive (now w)) ∧
         next_count (existing_of (seen_courses a) (course_id c)) = Ok count ∧
         seen_count e = Some count) ∧
  (∀ w' courses',
     fetch w' = Returns (Some courses') → x ∈ courses' →
     (check_for_new_courses w' a').1 = Ok true →
     ∃ batch', x ∈ batch' ∧
       notifications (effects (check_for_new_courses w' a').2)
         = notifications (effects a') ++ [batch']).
Proof.
  intros a' Hcall Hx Hsmtp. subst a'.
  destruct (check_for_new_courses w a) as [r a'] eqn:Hrun. cbn [fst snd] in *.
  pose proof Hrun as Hrun'. rewrite check_for_new_courses_eq in Hrun'.
  unfold cycle in Hrun'.
  destruct (body_outcome w a) as [[b|e] a1] eqn:E; cbn [fst snd] in Hrun';
    inversion Hrun'; subst r a'; clear Hrun'.
  - apply body_outcome_ok in E
      as (-> & s & fetched & news & cur & Hr & Hf & Hs & ->).
    unfold completed in Hcall at 1; cbn [effects] in Hcall.
    rewrite notifications_app, notifications_completed in Hcall.
    apply app_inv_head in Hcall.
    destruct news as [|c0 news]; [done|]. inversion Hcall; subst batch.
    destruct fetched as [courses|].
    2:{ destruct (scan_result_facts _ _ _ _ _ Hs) as (Hnew & _). done. }
    assert (Hnew : c0 :: news = new_courses_of (seen_courses a) courses).
    { by apply (scan_result_facts w _ _ _ cur). }
    rewrite Hnew in Hx.
    destruct (notifier_failure_commits_only_seen w a _ courses x Hf Hrun Hx Hsmtp)
      as (_ & Hgone & Hwrites & Hold & Hnext).
    split; [done|]. split; [done|]. split; [done|]. split.
    + by exists courses.
    + intros w' courses' Hf' Hx' Hok.
      destruct (check_for_new_courses w' _) as [r' a''] eqn:Hrun2.
      cbn [fst snd] in *. subst r'. by eapply Hnext.
  - apply body_outcome_raise in E as ->.
    rewrite notifications_failed, notifications_interrupted in Hcall.
    by apply app_singleton_inv in Hcall.
Qed.

(** ** Idempotent re-poll *)

Lemma next_count_ok m count :
  next_count m = Ok count →
  ∃ n, default (CInt 0) (seen_count m) = CInt n ∧ count = CInt (n + 1).
Proof.
  unfold next_count. destruct (default _ _) as [n|]; intros H; inversion H.
  by exists n.
Qed.

Lemma existing_of_meta seen k e :
  seen !! k = Some (Meta e) → existing_of seen k = e.
Proof. unfold existing_of. by intros ->. Qed.

Lemma new_courses_of_nil seen courses :
  (∀ c, c ∈ courses → is_Some (seen !! course_id c)) →
  new_courses_of seen courses = [].
Proof.
  intros H. destruct (new_courses_of seen courses) as [|c rest] eqn:E; [done|].
  assert (Hc : c ∈ new_courses_of seen courses)
    by (rewrite E; apply list_elem_of_here).
  apply elem_of_new_courses_of in Hc as [Hin Hn].
  destruct (H c Hin) as [v Hv]. congruence.
Qed.

(** After a completed cycle whose notification, if any, was delivered,
    every fetched item has an entry with an integer count and a
    [first_seen]. *)
Lemma fetched_items_are_seen w a s courses new_courses current c :
  scan_result w (seen_courses a) (default [] (Some courses)) ([], ∅)
    = Ok (new_courses, current) →
  (new_courses = [] ∨ smtp_ok w = true) →
  c ∈ courses →
  ∃ e n t,
    seen_courses (completed w a s (Some courses) new_courses current)
      !! course_id c = Some (Meta e) ∧
    seen_count e = Some (CInt n) ∧ first_seen e = Some t.
Proof.
  intros Hs Hdel Hc. pose proof Hs as Hs0.
  change (default [] (Some courses)) with courses in Hs.
  destruct (scan_result_facts _ _ _ _ _ Hs) as (Hnew & Hdom & Hent).
  assert (Hcur : is_Some (current !! course_id c)).
  { apply Hdom, list_elem_of_fmap. by exists c. }
  destruct Hcur as [e He].
  destruct (Hent _ _ He) as (_ & Hfs & count & Hcount & Hsc).
  apply next_count_ok in Hcount as (n & _ & ->).
  exists e, (n + 1), (default (TNaive (now w))
                        (first_seen (existing_of (seen_courses a) (course_id c)))).
  split; [|done].
  rewrite (lookup_completed _ _ _ _ _ _ _ Hs0), He.
  destruct (seen_courses a !! course_id c) as [v|] eqn:Ev; [done|].
  assert (Hin : c ∈ new_courses).
  { rewrite Hnew. by apply elem_of_new_courses_of. }
  destruct Hdel as [->| Hsmtp]; [by apply elem_of_nil in Hin|].
  unfold delivered. destruct new_courses; [by apply elem_of_nil in Hin|].
  by rewrite Hsmtp.
Qed.

(** C2. When a cycle completed and its notification, if there was one,
    was delivered, the next cycle on the same fetched list completes too,
    its diff loop finds no new item, it does not call the notifier, and
    for every fetched item it adds exactly one to [seen_count] and keeps
    [first_seen]. *)
Theorem repeated_poll_is_idempotent
    (w1 w2 : world) (a a1 : agent) (courses : list course) :
  fetch w1 = Returns (Some courses) →
  fetch w2 = Returns (Some courses) →
  check_for_new_courses w1 a = (Ok true, a1) →
  (new_courses_of (seen_courses a) courses = [] ∨ smtp_ok w1 = true) →
  ∃ a2 current,
    check_for_new_courses w2 a1 = (Ok true, a2) ∧
    (scan w2 courses ([], ∅) a1).1 = Ok ([], current) ∧
    notifications (effects a2) = notifications (effects a1) ∧
    ∀ c, c ∈ courses →
      ∃ e1 e2 n,
        seen_courses a1 !! course_id c = Some (Meta e1) ∧
        seen_courses a2 !! course_id c = Some (Meta e2) ∧
        seen_count e1 = Some (CInt n) ∧
        seen_count e2 = Some (CInt (n + 1)) ∧
        first_seen e2 = first_seen e1.
Proof.
  intros Hf1 Hf2 H1 Hdel.
  apply check_for_new_courses_completed in H1
    as (s & fetched & news & cur & Hr & Hf' & Hs & ->).
  rewrite Hf1 in Hf'. inversion Hf'; subst fetched.
  assert (Hnews : news = new_courses_of (seen_courses a) courses).
  { by apply (scan_result_facts w1 _ _ _ cur). }
  rewrite <- Hnews in Hdel.
  set (a1 := completed w1 a s (Some courses) news cur).
  assert (Hseen : ∀ c, c ∈ courses →
            ∃ e n t, seen_courses a1 !! course_id c = Some (Meta e) ∧
                     seen_count e = Some (CInt n) ∧ first_seen e = Some t).
  { intros c Hc. by apply fetched_items_are_seen. }
  assert (Hscan : ∃ r, scan_result w2 (seen_courses a1) courses ([], ∅) = Ok r).
  { apply scan_result_total. intros c Hc.
    destruct (Hseen c Hc) as (e & n & t & He & Hn & _).
    unfold pending_entry, next_count.
    rewrite (existing_of_meta _ _ _ He), Hn. by eexists. }
  destruct Hscan as [[news2 cur2] Hs2].
  destruct (scan_result_facts _ _ _ _ _ Hs2) as (Hnew2 & Hdom2 & Hent2).
  assert (Hnil : new_courses_of (seen_courses a1) courses = []).
  { apply new_courses_of_nil. intros c Hc.
    destruct (Hseen c Hc) as (e & _ & _ & -> & _). by eexists. }
  rewrite Hnil in Hnew2. subst news2.
  exists (completed w2 a1 s (Some courses) [] cur2), cur2.
  split; [|split; [by rewrite scan_eq, Hs2|split]].
  - by apply completed_check_for_new_courses.
  - unfold completed at 1; cbn [effects].
    by rewrite notifications_app, notifications_completed, app_nil_r.
  - intros c Hc.
    destruct (Hseen c Hc) as (e1 & n & t & He1 & Hn & Ht).
    assert (Hcur : is_Some (cur2 !! course_id c)).
    { apply Hdom2, list_elem_of_fmap. by exists c. }
    destruct Hcur as [e2 He2].
    destruct (Hent2 _ _ He2) as (_ & Hfs & count & Hcount & Hsc).
    rewrite (existing_of_meta _ _ _ He1) in Hfs, Hcount.
    apply next_count_ok in Hcount as (n' & Hn' & ->).
    rewrite Hn in Hn'. cbn in Hn'. inversion Hn'; subst n'.
    exists e1, e2, n. split; [done|]. split; [|split; [done|split; [done|]]].
    + rewrite (lookup_completed w2 a1 s (Some courses) [] cur2 _ Hs2).
      by rewrite He2, He1.
    + by rewrite Hfs, Ht.
Qed.

(** ** The count invariant *)

Lemma counts_positive_empty : counts_positive ∅.
Proof. intros k m n H. by rewrite lookup_empty in H. Qed.

Lemma prior_count_nonneg seen k :
  counts_positive seen → 0 ≤ prior_count seen k.
Proof.
  intros H. unfold prior_count, existing_of.
  destruct (seen !! k) as [[m|]|] eqn:E; simpl; try lia.
  destruct (seen_count m) as [[p|]|] eqn:Ec; try lia.
  pose proof (H _ _ _ E Ec). lia.
Qed.

Lemma next_count_prior seen k count :
  next_count (existing_of seen k) = Ok count →
  count = CInt (prior_count seen k + 1).
Proof.
  unfold next_count, prior_count.
  destruct (seen_count (existing_of seen k)) as [[p|]|]; simpl;
    intros H; by inversion H.
Qed.

(** C10. Starting from a seen-set whose integer counts are at least 1,
    every entry that a call of [check_for_new_courses] stores has an
    integer [seen_count] that is the count read for its id (0 when
    missing) plus one, hence at least 1 and equal to 1 for a new item; and
    the seen-set after the call again has all integer counts at least 1. *)
Theorem stored_counts_are_positive (w : world) (a : agent) :
  counts_positive (seen_courses a) →
  let a' := (check_for_new_courses w a).2 in
  (∀ k v,
     seen_courses a' !! k = Some v → seen_courses a !! k ≠ Some v →
     ∃ e n, v = Meta e ∧ seen_count e = Some (CInt n) ∧
            n = prior_count (seen_courses a) k + 1 ∧ 1 ≤ n) ∧
  counts_positive (seen_courses a').
Proof.
  intros Hpos a'. subst a'. rewrite check_for_new_courses_eq. cbn [snd].
  unfold cycle.
  destruct (body_outcome w a) as [[b|e] a1] eqn:E; cbn [snd].
  - apply body_outcome_ok in E
      as (_ & s & fetched & news & cur & Hr & Hf & Hs & ->).
    destruct (scan_result_facts _ _ _ _ _ Hs) as (_ & _ & Hent).
    assert (Hstored : ∀ k v,
              seen_courses (completed w a s fetched news cur) !! k = Some v →
              seen_courses a !! k = Some v ∨
              ∃ e n, v = Meta e ∧ seen_count e = Some (CInt n) ∧
                     n = prior_count (seen_courses a) k + 1 ∧ 1 ≤ n).
    { intros k v. rewrite (lookup_completed _ _ _ _ _ _ _ Hs).
      destruct (cur !! k) as [e0|] eqn:Ec.
      - destruct (Hent _ _ Ec) as (_ & _ & count & Hcount & Hsc).
        apply next_count_prior in Hcount as ->.
        pose proof (prior_count_nonneg _ k Hpos).
        intros Hv. right. exists e0, (prior_count (seen_courses a) k + 1).
        assert (v = Meta e0) as ->.
        { destruct (seen_courses a !! k);
            [|destruct (delivered w news)]; by inversion Hv. }
        repeat split; [done | lia].
      - destruct (seen_courses a !! k) as [v0|]; [|done].
        destruct (to_remove _ v0); [done|]. intros Hv. by left. }
    split.
    + intros k v Hv Hne. by destruct (Hstored k v Hv).
    + intros k m n Hk Hn.
      destruct (Hstored k _ Hk) as [Hold|(e0 & n0 & Hm & Hn0 & _ & Hge)].
      * by apply (Hpos k m n).
      * inversion Hm; subst e0. rewrite Hn in Hn0. by inversion Hn0; subst.
  - apply body_outcome_raise in E as ->.
    destruct (failed_fields w e (interrupted w a)) as (-> & _).
    destruct (interrupted_fields w a) as (-> & _).
    split; [|done]. intros k v Hv Hne. done.
Qed.

(** ** Pruning *)

(** Which values the deletion loop removes: the metadata dicts whose
    [last_seen] is an offset-free ISO string older than the cutoff. *)
Lemma to_remove_spec (cutoff : Z) (v : stored) :
  to_remove (Datetime cutoff false) v = true ↔
  ∃ m t, v = Meta m ∧ last_seen m = Some (TNaive t) ∧ t < cutoff.
Proof.
  split.
  - destruct v as [m|]; [|done]. simpl.
    destruct (last_seen m) as [[t|t| | |]|] eqn:E; simpl; try done.
    intros H. apply bool_decide_eq_true in H. by exists m, t.
  - intros (m & t & -> & Hls & Hlt). simpl. rewrite Hls. simpl.
    by apply bool_decide_eq_true.
Qed.

Lemma seen_courses_cleanup w a :
  seen_courses (_cleanup_old_courses w a).2 = prune (cutoff_date w) (seen_courses a).
Proof.
  rewrite _cleanup_old_courses_eq. unfold cleaned. cbn [snd].
  by destruct (courses_to_remove _ _).
Qed.

(** A prune pass keeps an entry unless its [last_seen] is an offset-free
    timestamp more than 30 days old; the fetched list plays no part. *)
Lemma cleanup_lookup w a k :
  seen_courses (_cleanup_old_courses w a).2 !! k =
    match seen_courses a !! k with
    | Some (Meta m) =>
        match last_seen m with
        | Some (TNaive t) =>
            if bool_decide (t < now w - days 30) then None else Some (Meta m)
        | _ => Some (Meta m)
        end
    | o => o
    end.
Proof.
  rewrite seen_courses_cleanup, lookup_prune.
  destruct (seen_courses a !! k) as [[m|]|]; try done.
  unfold to_remove, cutoff_date.
  destruct (last_seen m) as [[t|t| | |]|]; simpl; try done;
    by destruct (bool_decide _).
Qed.

Lemma cleanup_removes_31_days w a k m :
  seen_courses a !! k = Some (Meta m) →
  last_seen m = Some (TNaive (now w - days 31)) →
  seen_courses (_cleanup_old_courses w a).2 !! k = None.
Proof.
  intros Hk Hls. rewrite cleanup_lookup, Hk, Hls.
  rewrite bool_decide_eq_true_2; [done|]. unfold days. lia.
Qed.

Lemma cleanup_keeps_29_days w a k m :
  seen_courses a !! k = Some (Meta m) →
  last_seen m = Some (TNaive (now w - days 29)) →
  seen_courses (_cleanup_old_courses w a).2 !! k = Some (Meta m).
Proof.
  intros Hk Hls. rewrite cleanup_lookup, Hk, Hls.
  rewrite bool_decide_eq_false_2; [done|]. unfold days. lia.
Qed.

Lemma cleanup_keeps_unparsable w a k m :
  seen_courses a !! k = Some (Meta m) →
  last_seen m = Some TGarbage →
  seen_courses (_cleanup_old_courses w a).2 !! k = Some (Meta m).
Proof. intros Hk Hls. by rewrite cleanup_lookup, Hk, Hls. Qed.

(** C5. An entry whose [last_seen] carries a UTC offset (or a trailing
    [Z], which the code rewrites to [+00:00]) parses, but comparing it with
    the offset-free cutoff raises inside the bare [except]: a prune pass
    keeps it however old it is. *)
Theorem cleanup_keeps_offset_aware_entries
    (w : world) (a : agent) (k : string) (m : metadata) (t : Z) :
  seen_courses a !! k = Some (Meta m) →
  last_seen m = Some (TAware t) →
  parse_last_seen (TAware t) = Ok (Datetime t true) ∧
  seen_courses (_cleanup_old_courses w a).2 !! k = Some (Meta m).
Proof. intros Hk Hls. by rewrite cleanup_lookup, Hk, Hls. Qed.

(** An entry stamped 31 days before the pass, with a UTC offset. *)
Lemma cleanup_keeps_offset_aware_entries_witness :
  seen_courses stale_aware_agent !! "old" = Some (Meta stale_aware_entry) ∧
  last_seen stale_aware_entry = Some (TAware 0) ∧
  0 < now (quiet_world (days 31)) - days 30 ∧
  seen_courses (_cleanup_old_courses (quiet_world (days 31)) stale_aware_agent).2
    !! "old" = Some (Meta stale_aware_entry).
Proof.
  split; [reflexivity|]. split; [reflexivity|]. split; [reflexivity|].
  apply (cleanup_keeps_offset_aware_entries (quiet_world (days 31))
           stale_aware_agent "old" stale_aware_entry 0); reflexivity.
Defined.

(** ** Loading the store *)

(** When the backup copy can be made, loading returns a dict: the empty one
    for a missing file and for a file that is not a JSON document, which
    is copied aside and left in place. *)
Lemma load_returns_when_backup_succeeds (d : disk) :
  (seen_file d ≠ Some Unreadable) → backup_writable d = true →
  ∃ m l d',
    _load_seen_courses d = (Ok m, (l, d')) ∧
    seen_file d' = seen_file d ∧
    (seen_file d = None → m = ∅ ∧ d' = d) ∧
    (seen_file d = Some (FileText None) →
       m = ∅ ∧ backup_file d' = Some (FileText None)).
Proof.
  intros Hr Hw. unfold _load_seen_courses, shutil_copy.
  destruct d as [[f|] bk bw]; simpl in *; subst.
  - destruct f as [[[[[m|]|]|]|]|]; simpl; try done;
      eexists _, _, _; (split; [reflexivity|]); repeat split; done.
  - eexists _, _, _. split; [reflexivity|]. repeat split; done.
Qed.

(** C6. The file exists and is not valid JSON, and the backup cannot be
    written: [shutil.copy], called in the [except] clause, raises, and the
    exception leaves [_load_seen_courses] and [__init__]. *)
Theorem load_raises_when_backup_fails :
  _load_seen_courses corrupt_disk
    = (Raise OSError, ([(ERROR, MLoadError JSONDecodeError)], corrupt_disk)) ∧
  (__init__ corrupt_disk 0 1).1 = Raise OSError.
Proof. split; reflexivity. Qed.

(** The same for a file that exists and cannot be read. *)
Lemma load_raises_on_unreadable_file bk bw :
  (_load_seen_courses (Disk (Some Unreadable) bk bw)).1 = Raise OSError.
Proof. reflexivity. Qed.

(** ** The recovery trigger *)

Lemma restart_attempts_app l1 l2 :
  restart_attempts (l1 ++ l2) = (restart_attempts l1 + restart_attempts l2)%nat.
Proof. unfold restart_attempts. by rewrite filter_app, length_app. Qed.

Lemma restart_attempts_cons r l :
  restart_attempts (r :: l) =
    ((if is_restart_attempt r then 1 else 0) + restart_attempts l)%nat.
Proof.
  unfold restart_attempts. rewrite filter_cons.
  destruct (is_restart_attempt r); by case_decide.
Qed.

Lemma restart_attempts_scan_log w seen courses :
  restart_attempts (scan_log w seen courses) = 0%nat.
Proof.
  induction courses as [|c rest IH]; [done|]. cbn [scan_log].
  rewrite restart_attempts_app.
  assert (restart_attempts (one_log seen c) = 0%nat) as ->.
  { unfold one_log.
    by destruct (seen !! course_id c) as [[]|]; rewrite ?restart_attempts_cons. }
  by destruct (pending_entry w seen c).
Qed.

Lemma restart_attempts_interrupted w a :
  restart_attempts (log (interrupted w a)) = restart_attempts (log a).
Proof.
  unfold interrupted, init_log.
  destruct (ready w a); [destruct (fetch w) as [fetched|]|]; cbn [log];
    [destruct fetched| |]; destruct (scraper a); cbn [app];
    rewrite ?restart_attempts_app, ?restart_attempts_cons,
      ?restart_attempts_scan_log; cbn; lia.
Qed.

Lemma restart_attempts_failed w e a :
  restart_attempts (log (failed w e a)) =
    (restart_attempts (log a) + if restart_due a then 1 else 0)%nat.
Proof.
  rewrite failed_log, restart_attempts_app.
  destruct (restart_due a); [destruct (restart_result w a)|];
    by rewrite !restart_attempts_cons.
Qed.

Lemma run_app ws w a :
  run (ws ++ [w]) a = (check_for_new_courses w (run ws a)).2.
Proof. revert a. induction ws as [|w0 ws IH]; intros a; [done|]. apply IH. Qed.

Lemma all_fail_app ws w a :
  all_fail (ws ++ [w]) a ↔
  all_fail ws a ∧ (check_for_new_courses w (run ws a)).1 = Ok false.
Proof.
  revert a. induction ws as [|w0 ws IH]; intros a; cbn [all_fail app run].
  - tauto.
  - rewrite IH. tauto.
Qed.

(** A call that returns [False] went through the [except] clause. *)
Lemma failed_call w a :
  (check_for_new_courses w a).1 = Ok false →
  ∃ e, (check_for_new_courses w a).2 = failed w e (interrupted w a).
Proof.
  rewrite check_for_new_courses_eq. unfold cycle. cbn [fst snd].
  destruct (body_outcome w a) as [[b|e] a1] eqn:E; cbn [fst snd].
  - apply body_outcome_ok in E as [-> _]. intros H. by inversion H.
  - apply body_outcome_raise in E as ->. by exists e.
Qed.

(** Failures below the threshold only count. *)
Lemma run_below_threshold ws : ∀ a,
  all_fail ws a →
  consecutive_failures a + Z.of_nat (length ws) < max_consecutive_failures a →
  consecutive_failures (run ws a) = consecutive_failures a + Z.of_nat (length ws) ∧
  max_consecutive_failures (run ws a) = max_consecutive_failures a ∧
  restart_on_failure (run ws a) = restart_on_failure a ∧
  restart_attempts (log (run ws a)) = restart_attempts (log a).
Proof.
  induction ws as [|w ws IH]; intros a Hall Hlt; cbn [run].
  - cbn. repeat split; lia.
  - destruct Hall as [Hw Hrest]. cbn [length] in Hlt.
    destruct (failed_call _ _ Hw) as [e He].
    assert (Hdue : restart_due (interrupted w a) = false).
    { rewrite restart_due_interrupted. unfold restart_due.
      rewrite bool_decide_eq_false_2; [apply andb_false_r | lia]. }
    destruct (failed_fields w e (interrupted w a)) as (_ & _ & _ & Hmax & Hrof & _).
    destruct (interrupted_fields w a) as (_ & Hcf & Hmax' & Hrof' & _).
    pose proof (failed_consecutive_failures w e (interrupted w a)) as Hcf'.
    pose proof (restart_attempts_failed w e (interrupted w a)) as Hatt.
    rewrite Hdue in Hcf', Hatt. rewrite <- He in *.
    destruct (IH _ Hrest) as (-> & -> & -> & ->); [lia|].
    rewrite Hcf', Hcf, Hmax, Hmax', Hrof, Hrof', Hatt,
      restart_attempts_interrupted.
    cbn [length]. repeat split; lia.
Qed.

(** C3, as amended.  Starting with no failure counted, after exactly
    [max_consecutive_failures] calls in a row that fail, recovery has been
    attempted exactly once, in the last of them; [_restart_scraper] always
    returns; when the restart succeeds the agent holds the fresh scraper
    and [consecutive_failures] is 0; when the restart itself raises, the
    failure is logged and [consecutive_failures] stays at
    [max_consecutive_failures]. *)
Theorem recovery_fires_once_at_threshold
    (a : agent) (ws : list world) (w : world) :
  consecutive_failures a = 0 →
  restart_on_failure a = true →
  Z.of_nat (length ws) + 1 = max_consecutive_failures a →
  all_fail (ws ++ [w]) a →
  let before := run ws a in
  let after := run (ws ++ [w]) a in
  restart_attempts (log before) = restart_attempts (log a) ∧
  restart_attempts (log after) = S (restart_attempts (log a)) ∧
  (∀ x, (_restart_scraper w x).1 = Ok tt) ∧
  match restart_result w (interrupted w before) with
  | Returns s => scraper after = Some s ∧ consecutive_failures after = 0
  | Throws e =>
      consecutive_failures after = max_consecutive_failures a ∧
      last (log after) = Some (ERROR, MRestartFailed e)
  end.
Proof.
  intros Hcf Hrof Hlen Hall before after. subst before after.
  apply all_fail_app in Hall as [Hall Hw].
  destruct (run_below_threshold ws a Hall) as (Hcf' & Hmax' & Hrof' & Hatt');
    [lia|].
  rewrite run_app.
  destruct (failed_call _ _ Hw) as [e He]. rewrite He.
  assert (Hdue : restart_due (interrupted w (run ws a)) = true).
  { rewrite restart_due_interrupted. unfold restart_due.
    rewrite Hrof', Hrof, bool_decide_eq_true_2; [done | lia]. }
  destruct (interrupted_fields w (run ws a)) as (_ & Hicf & _).
  split; [done|]. split; [|split].
  - rewrite restart_attempts_failed, Hdue, restart_attempts_interrupted. lia.
  - intros x. by rewrite _restart_scraper_eq.
  - pose proof (failed_consecutive_failures w e (interrupted w (run ws a))) as Hc.
    pose proof (failed_log w e (interrupted w (run ws a))) as Hl.
    rewrite Hdue in Hc, Hl.
    destruct (restart_result w (interrupted w (run ws a))) as [s|e'] eqn:Er.
    + split; [|done]. by apply failed_scraper.
    + split; [lia|]. rewrite Hl, last_app. reflexivity.
Qed.

(** C3, as stated, fails: after five failing calls in a row recovery is
    attempted once, the attempt raises, and [consecutive_failures] is 5,
    not 0. *)
Lemma recovery_attempt_may_leave_the_count :
  consecutive_failures fresh_agent = 0 ∧
  max_consecutive_failures fresh_agent = 5 ∧
  all_fail (replicate 5 broken_world) fresh_agent ∧
  restart_attempts (log (run (replicate 5 broken_world) fresh_agent)) = 1%nat ∧
  consecutive_failures (run (replicate 5 broken_world) fresh_agent) = 5 ∧
  consecutive_failures (run (replicate 5 broken_world) fresh_agent) ≠ 0.
Proof.
  split; [reflexivity|]. split; [reflexivity|].
  split; [by vm_compute|]. split; [by vm_compute|].
  split; [by vm_compute|]. by vm_compute.
Qed.

(** Five fetches that raise, from a fresh agent: no recovery in the first
    four calls, one in the fifth. *)
Lemma recovery_fires_once_at_threshold_witness :
  consecutive_failures fresh_agent = 0 ∧
  restart_on_failure fresh_agent = true ∧
  Z.of_nat (length (replicate 4 failing_world)) + 1
    = max_consecutive_failures fresh_agent ∧
  all_fail (replicate 4 failing_world ++ [failing_world]) fresh_agent ∧
  restart_attempts (log (run (replicate 4 failing_world) fresh_agent)) = 0%nat ∧
  restart_attempts
    (log (run (replicate 4 failing_world ++ [failing_world]) fresh_agent)) = 1%nat.
Proof.
  assert (H1 : consecutive_failures fresh_agent = 0) by reflexivity.
  assert (H2 : restart_on_failure fresh_agent = true) by reflexivity.
  assert (H3 : Z.of_nat (length (replicate 4 failing_world)) + 1
               = max_consecutive_failures fresh_agent) by reflexivity.
  assert (H4 : all_fail (replicate 4 failing_world ++ [failing_world]) fresh_agent).
  { vm_compute. repeat split. }
  pose proof (recovery_fires_once_at_threshold fresh_agent
                (replicate 4 failing_world) failing_world H1 H2 H3 H4) as H.
  cbv zeta in H. destruct H as (Hb & Ha & _).
  repeat split; try assumption.
Defined.

(** ** The failure counter on quiet cycles *)

(** The counters after a call that reached [return True]. *)
Lemma counters_after_completed_call w a a' :
  check_for_new_courses w a = (Ok true, a') →
  last_successful_check a' = Some (now w) ∧
  status (health_status a') = Healthy ∧
  ∃ new_courses,
    notifications (effects a') = notifications (effects a) ++
      match new_courses with [] => [] | _ :: _ => [new_courses] end ∧
    consecutive_failures a' =
      match new_courses with
      | [] => consecutive_failures a
      | _ :: _ => if smtp_ok w then 0 else consecutive_failures a + 1
      end.
Proof.
  intros H.
  apply check_for_new_courses_completed in H
    as (s & fetched & news & cur & Hr & Hf & Hs & ->).
  split; [done|]. split; [done|]. exists news. split; [|done].
  unfold completed; cbn [effects].
  by rewrite notifications_app, notifications_completed.
Qed.

(** C4. A call that finds no new course returns [True] and sets
    [last_successful_check] and the status, but leaves
    [consecutive_failures] as it was: the reset of line 209 sits on the
    branch where a notification was delivered. *)
Theorem quiet_success_keeps_failure_count
    (w : world) (a : agent) (s : scraper_t) (courses : list course) :
  ready w a = Returns s →
  fetch w = Returns (Some courses) →
  (∀ c, c ∈ courses → ∃ m n, seen_courses a !! course_id c = Some (Meta m) ∧
                             seen_count m = Some (CInt n)) →
  ∃ a',
    check_for_new_courses w a = (Ok true, a') ∧
    last_successful_check a' = Some (now w) ∧
    status (health_status a') = Healthy ∧
    notifications (effects a') = notifications (effects a) ∧
    consecutive_failures a' = consecutive_failures a.
Proof.
  intros Hr Hf Hseen.
  assert (Hscan : ∃ r, scan_result w (seen_courses a) courses ([], ∅) = Ok r).
  { apply scan_result_total. intros c Hc.
    destruct (Hseen c Hc) as (m & n & Hm & Hn).
    unfold pending_entry, next_count.
    rewrite (existing_of_meta _ _ _ Hm), Hn. by eexists. }
  destruct Hscan as [[news cur] Hs].
  assert (news = []) as ->.
  { destruct (scan_result_facts _ _ _ _ _ Hs) as (-> & _).
    apply new_courses_of_nil. intros c Hc.
    destruct (Hseen c Hc) as (m & _ & -> & _). by eexists. }
  exists (completed w a s (Some courses) [] cur).
  split; [by apply completed_check_for_new_courses|].
  split; [done|]. split; [done|]. split; [|done].
  unfold completed; cbn [effects].
  by rewrite notifications_app, notifications_completed, app_nil_r.
Qed.

(** After two failed calls the counter is 2; an empty fetch at a later
    time returns [True] and the counter is still 2. *)
Lemma quiet_success_keeps_failure_count_witness :
  consecutive_failures twice_failed_agent = 2 ∧
  ready (quiet_world 2000) twice_failed_agent = Returns (Scraper true) ∧
  fetch (quiet_world 2000) = Returns (Some []) ∧
  (check_for_new_courses (quiet_world 2000) twice_failed_agent).1 = Ok true ∧
  consecutive_failures
    (check_for_new_courses (quiet_world 2000) twice_failed_agent).2 = 2.
Proof.
  assert (H1 : ready (quiet_world 2000) twice_failed_agent = Returns (Scraper true))
    by reflexivity.
  assert (H2 : fetch (quiet_world 2000) = Returns (Some [])) by reflexivity.
  destruct (quiet_success_keeps_failure_count (quiet_world 2000)
              twice_failed_agent (Scraper true) [] H1 H2)
    as (a' & Hcall & _ & _ & _ & Hcf).
  { intros c Hc. by apply elem_of_nil in Hc. }
  rewrite Hcall. cbn [fst snd]. rewrite Hcf.
  repeat split; reflexivity.
Defined.

(** ** The properties on a concrete store *)

Lemma counts_positive_agent_a : counts_positive (seen_courses agent_a).
Proof.
  intros k m n Hk Hn. cbn in Hk.
  apply lookup_singleton_Some in Hk as [_ Hm]. inversion Hm; subst m.
  cbn in Hn. inversion Hn. lia.
Defined.

(** [a] is known, [b] is new, the notifier fails: [b] is not stored. *)
Lemma undelivered_item_is_not_committed_witness :
  notifications
    (effects
       (check_for_new_courses (poll 1000 [course_a; course_b] false) agent_a).2)
    = notifications (effects agent_a) ++ [[course_b]] ∧
  course_b ∈ [course_b] ∧
  smtp_ok (poll 1000 [course_a; course_b] false) = false ∧
  (check_for_new_courses (poll 1000 [course_a; course_b] false) agent_a).1
    = Ok true ∧
  seen_courses
    (check_for_new_courses (poll 1000 [course_a; course_b] false) agent_a).2
    !! "b" = None.
Proof.
  set (w := poll 1000 [course_a; course_b] false).
  assert (H1 : notifications (effects (check_for_new_courses w agent_a).2)
               = notifications (effects agent_a) ++ [[course_b]])
    by (vm_compute; reflexivity).
  assert (H2 : course_b ∈ [course_b]) by apply list_elem_of_here.
  assert (H3 : smtp_ok w = false) by reflexivity.
  pose proof (undelivered_item_is_not_committed w agent_a [course_b] course_b
                H1 H2 H3) as H.
  destruct H as (Hok & Hgone & _).
  split; [exact H1|]. split; [exact H2|]. split; [exact H3|].
  split; [exact Hok | exact Hgone].
Defined.

(** The same two courses fetched twice, the first notification delivered. *)
Lemma repeated_poll_is_idempotent_witness :
  fetch (poll 1000 [course_a; course_b] true)
    = Returns (Some [course_a; course_b]) ∧
  fetch (poll 2000 [course_a; course_b] true)
    = Returns (Some [course_a; course_b]) ∧
  (check_for_new_courses (poll 1000 [course_a; course_b] true) agent_a).1
    = Ok true ∧
  smtp_ok (poll 1000 [course_a; course_b] true) = true ∧
  (check_for_new_courses (poll 2000 [course_a; course_b] true)
     (check_for_new_courses (poll 1000 [course_a; course_b] true) agent_a).2).1
    = Ok true.
Proof.
  set (w1 := poll 1000 [course_a; course_b] true).
  set (w2 := poll 2000 [course_a; course_b] true).
  assert (H1 : fetch w1 = Returns (Some [course_a; course_b])) by reflexivity.
  assert (H2 : fetch w2 = Returns (Some [course_a; course_b])) by reflexivity.
  assert (H3 : check_for_new_courses w1 agent_a
               = (Ok true, (check_for_new_courses w1 agent_a).2))
    by (vm_compute; reflexivity).
  assert (H4 : smtp_ok w1 = true) by reflexivity.
  destruct (repeated_poll_is_idempotent w1 w2 agent_a _ _ H1 H2 H3 (or_intror H4))
    as (a2 & cur & Hcall & _).
  split; [exact H1|]. split; [exact H2|]. split; [by rewrite H3|].
  split; [exact H4|]. by rewrite Hcall.
Defined.

(** A fresh scraper that returns [None]. *)
Lemma none_fetch_is_an_empty_fetch_witness :
  ready none_world agent_a = Returns (Scraper true) ∧
  fetch none_world = Returns None ∧
  (check_for_new_courses none_world agent_a).1 = Ok true ∧
  status (health_status (check_for_new_courses none_world agent_a).2) = Healthy.
Proof.
  assert (H1 : ready none_world agent_a = Returns (Scraper true)) by reflexivity.
  assert (H2 : fetch none_world = Returns None) by reflexivity.
  pose proof (none_fetch_is_an_empty_fetch none_world agent_a _ H1 H2) as H.
  cbv zeta in H. destruct H as (Hr & _ & _ & Hst & _).
  split; [exact H1|]. split; [exact H2|]. split; [exact Hr | exact Hst].
Defined.

(** A delivered notification and nothing to prune: two writes. *)
Lemma persistence_schedule_witness :
  (check_for_new_courses (poll 1000 [course_a; course_b] true) agent_a).1
    = Ok true ∧
  length
    (writes
       (effects
          (check_for_new_courses (poll 1000 [course_a; course_b] true) agent_a).2))
    = 2%nat.
Proof.
  set (w := poll 1000 [course_a; course_b] true).
  assert (H : check_for_new_courses w agent_a
              = (Ok true, (check_for_new_courses w agent_a).2))
    by (vm_compute; reflexivity).
  destruct (persistence_schedule w agent_a _ H) as (fetched & news & cur & Hw).
  cbv zeta in Hw. destruct Hw as (_ & _ & _ & Hw).
  split; [by rewrite H|]. by vm_compute.
Defined.

(** The store of [agent_a] satisfies the invariant, and so does the store
    after a call. *)
Lemma stored_counts_are_positive_witness :
  counts_positive (seen_courses agent_a) ∧
  counts_positive
    (seen_courses
       (check_for_new_courses (poll 1000 [course_a; course_b] true) agent_a).2).
Proof.
  split; [exact counts_positive_agent_a|].
  apply (stored_counts_are_positive (poll 1000 [course_a; course_b] true)
           agent_a counts_positive_agent_a).
Defined.

(** * Further properties of the poll cycle and of the store *)

(** ** A call that fails *)

Lemma writes_restart_effects w a : writes (restart_effects w a) = [].
Proof.
  unfold restart_effects. destruct (scraper a); [destruct (quit_driver w)|]; done.
Qed.

Lemma writes_interrupted w a :
  writes (effects (interrupted w a)) = writes (effects a).
Proof.
  unfold interrupted.
  destruct (ready w a); [destruct (fetch w)|]; cbn [effects];
    rewrite !writes_app, ?writes_init_effects;
    by rewrite ?app_nil_r.
Qed.

Lemma writes_failed w e a :
  writes (effects (failed w e a)) = writes (effects a).
Proof.
  unfold failed, restarted. destruct (restart_due a); [|done].
  destruct (restart_result w _); cbn [effects add_effects];
    change (restart_effects w
              (add_logs [(ERROR, MTooMany (consecutive_failures a + 1))]
                 (counted e a)))
      with (restart_effects w a);
    by rewrite writes_app, writes_restart_effects, app_nil_r.
Qed.

(** X1. A call that returns [False] has changed nothing that is stored:
    the seen-set is the one before the call, nothing was handed to the
    notifier or to the store, and [last_successful_check] is as it was. *)
Theorem failed_call_leaves_the_store (w : world) (a : agent) :
  (check_for_new_courses w a).1 = Ok false →
  let a' := (check_for_new_courses w a).2 in
  seen_courses a' = seen_courses a ∧
  notifications (effects a') = notifications (effects a) ∧
  writes (effects a') = writes (effects a) ∧
  last_successful_check a' = last_successful_check a.
Proof.
  intros H a'. subst a'. destruct (failed_call _ _ H) as [e ->].
  destruct (failed_fields w e (interrupted w a)) as (-> & _ & _ & _ & _ & ->).
  destruct (interrupted_fields w a) as (-> & _ & _ & _ & _ & ->).
  by rewrite notifications_failed, notifications_interrupted,
    writes_failed, writes_interrupted.
Qed.

(** A fetch that raises, on the agent that has seen [a]. *)
Lemma failed_call_leaves_the_store_witness :
  (check_for_new_courses failing_world agent_a).1 = Ok false ∧
  seen_courses (check_for_new_courses failing_world agent_a).2
    = seen_courses agent_a.
Proof.
  assert (H : (check_for_new_courses failing_world agent_a).1 = Ok false)
    by (vm_compute; reflexivity).
  pose proof (failed_call_leaves_the_store failing_world agent_a H) as H'.
  cbv zeta in H'. destruct H' as (Hs & _).
  split; [exact H | exact Hs].
Defined.

(** ** A completed call and the file *)

Lemma calls_since_completed w a s fetched new_courses current :
  calls_since a (completed w a s fetched new_courses current)
    = completed_effects w a new_courses current.
Proof. unfold calls_since, completed; cbn [effects]. apply drop_app_length. Qed.

Lemma store_backup l : ∀ d,
  backup_file (foldl store d l) = backup_file d ∧
  backup_writable (foldl store d l) = backup_writable d.
Proof.
  induction l as [|e l IH]; intros d; cbn [foldl]; [done|].
  destruct (IH (store d e)) as [-> ->].
  by destruct e as [| | | |m []].
Qed.

Lemma store_last_write l : ∀ d m,
  last (writes l) = Some (m, true) →
  seen_file (foldl store d l) = Some (saved_file m).
Proof.
  induction l as [|e l IH] using rev_ind; intros d m H; [done|].
  rewrite foldl_app. cbn [foldl].
  rewrite writes_app in H.
  destruct e as [| | | |m' ok]; cbn in H; rewrite ?app_nil_r in H;
    try (cbn [store]; by apply IH).
  rewrite last_snoc in H. by inversion H; subst.
Qed.

Lemma prune_nothing cutoff seen :
  courses_to_remove cutoff seen = [] → prune cutoff seen = seen.
Proof. unfold prune. by intros ->. Qed.

Lemma last_write_completed w a new_courses current :
  last (writes (completed_effects w a new_courses current))
    = Some (seen_pruned w a new_courses current, disk_ok w).
Proof.
  rewrite writes_completed, last_app.
  unfold seen_pruned.
  destruct (courses_to_remove _ _) eqn:E; [|done].
  cbn. by rewrite (prune_nothing _ _ E).
Qed.

Lemma load_saved_file d m :
  seen_file d = Some (saved_file m) → _load_seen_courses d = (Ok m, ([], d)).
Proof. intros H. unfold _load_seen_courses. by rewrite H. Qed.

(** X2. After a call that returned [True] and whose writes went through,
    the file holds the seen-set the agent has in memory: loading it
    returns that seen-set without a warning, and a new agent constructed
    from the disk starts from it. *)
Theorem completed_cycle_survives_restart
    (w : world) (a a' : agent) (d : disk) (t p : Z) :
  check_for_new_courses w a = (Ok true, a') →
  disk_ok w = true →
  let d' := foldl store d (calls_since a a') in
  _load_seen_courses d' = (Ok (seen_courses a'), ([], d')) ∧
  __init__ d' t p
    = (Ok (new_agent (seen_courses a') [(INFO, MInitialized)] t p), d').
Proof.
  intros H Hok d'.
  apply check_for_new_courses_completed in H
    as (s & fetched & news & cur & Hr & Hf & Hs & ->).
  assert (Hload : _load_seen_courses d'
            = (Ok (seen_courses (completed w a s fetched news cur)), ([], d'))).
  { apply load_saved_file. subst d'. rewrite calls_since_completed.
    apply store_last_write. by rewrite last_write_completed, Hok. }
  split; [exact Hload|]. unfold __init__. by rewrite Hload.
Qed.

(** Two courses polled on an empty disk: the file then holds both. *)
Lemma completed_cycle_survives_restart_witness :
  disk_ok (poll 1000 [course_a; course_b] true) = true ∧
  is_Some
    (seen_courses
       (check_for_new_courses (poll 1000 [course_a; course_b] true) agent_a).2
     !! "b") ∧
  (_load_seen_courses
     (foldl store (Disk None None true)
        (calls_since agent_a
           (check_for_new_courses (poll 1000 [course_a; course_b] true)
              agent_a).2))).1
    = Ok (seen_courses
            (check_for_new_courses (poll 1000 [course_a; course_b] true)
               agent_a).2).
Proof.
  set (w := poll 1000 [course_a; course_b] true).
  assert (H1 : check_for_new_courses w agent_a
               = (Ok true, (check_for_new_courses w agent_a).2))
    by (vm_compute; reflexivity).
  assert (H2 : disk_ok w = true) by reflexivity.
  pose proof (completed_cycle_survives_restart w agent_a _
                (Disk None None true) 0 1 H1 H2) as H.
  cbv zeta in H. destruct H as [Hl _].
  split; [exact H2|]. split; [eexists; vm_compute; reflexivity|]. by rewrite Hl.
Defined.

(** X3. Loading a file whose ['seen_courses'] is not a dict returns the
    empty dict with a warning and makes no backup; the first call that
    completes and can write then replaces the file by the new seen-set. *)
Theorem non_dict_store_is_replaced_without_backup
    (d : disk) (w : world) (t p : Z) (a' : agent) :
  seen_file d = Some (FileText (Some (DocObject (Some FieldOther)))) →
  let a := new_agent ∅ [(INFO, MInitialized); (WARNING, MNotADict)] t p in
  check_for_new_courses w a = (Ok true, a') →
  disk_ok w = true →
  __init__ d t p = (Ok a, d) ∧
  let d' := foldl store d (calls_since a a') in
  seen_file d' = Some (saved_file (seen_courses a')) ∧
  backup_file d' = backup_file d.
Proof.
  intros Hd a H Hok. split.
  - unfold __init__, _load_seen_courses. by rewrite Hd.
  - intros d'. split; [|apply store_backup].
    apply check_for_new_courses_completed in H
      as (s & fetched & news & cur & Hr & Hf & Hs & ->).
    subst d'. rewrite calls_since_completed.
    apply store_last_write. by rewrite last_write_completed, Hok.
Qed.

Lemma non_dict_store_is_replaced_without_backup_witness :
  (__init__ list_disk 0 1).2 = list_disk ∧
  backup_file
    (foldl store list_disk
       (calls_since (new_agent ∅ [(INFO, MInitialized); (WARNING, MNotADict)] 0 1)
          (check_for_new_courses (poll 1000 [course_a] true)
             (new_agent ∅ [(INFO, MInitialized); (WARNING, MNotADict)] 0 1)).2))
    = None.
Proof.
  set (a := new_agent ∅ [(INFO, MInitialized); (WARNING, MNotADict)] 0 1).
  set (w := poll 1000 [course_a] true).
  assert (H1 : seen_file list_disk
               = Some (FileText (Some (DocObject (Some FieldOther)))))
    by reflexivity.
  assert (H2 : check_for_new_courses w a
               = (Ok true, (check_for_new_courses w a).2))
    by (vm_compute; reflexivity).
  assert (H3 : disk_ok w = true) by reflexivity.
  pose proof (non_dict_store_is_replaced_without_backup list_disk w 0 1 _
                H1 H2 H3) as H.
  cbv zeta in H. destruct H as (Hi & _ & Hb).
  split; [by rewrite Hi | exact Hb].
Defined.

(** X4. When loading returns although the file could not be read as a
    JSON object, the result is the empty dict, the file is left in place
    and the backup is a copy of it. *)
Theorem load_resets_only_after_backup
    (d d' : disk) (f : file) (m : gmap string stored) (l : list logrec) :
  seen_file d = Some f →
  (read_json f = Ok DocOther ∨ ∃ e, read_json f = Raise e) →
  _load_seen_courses d = (Ok m, (l, d')) →
  m = ∅ ∧ seen_file d' = Some f ∧ backup_file d' = Some f ∧
  last l = Some (INFO, MBackedUp).
Proof.
  intros Hf Hread. unfold _load_seen_courses, shutil_copy. rewrite Hf.
  destruct f as [[doc|]|]; simpl in *.
  - destruct Hread as [Hread|[e Hread]]; [|done].
    inversion Hread; subst doc. simpl.
    destruct (backup_writable d); intros H; inversion H; subst; simpl.
    by rewrite ?Hf.
  - destruct (backup_writable d); intros H; inversion H; subst; simpl.
    by rewrite ?Hf.
  - intros H. inversion H.
Qed.

Lemma load_resets_only_after_backup_witness :
  seen_file (Disk (Some (FileText None)) None true) = Some (FileText None) ∧
  backup_file (_load_seen_courses (Disk (Some (FileText None)) None true)).2.2
    = Some (FileText None).
Proof.
  set (d := Disk (Some (FileText None)) None true).
  assert (H1 : seen_file d = Some (FileText None)) by reflexivity.
  assert (H2 : read_json (FileText None) = Ok DocOther
               ∨ ∃ e, read_json (FileText None) = Raise e)
    by (right; by exists JSONDecodeError).
  assert (H3 : _load_seen_courses d
               = (Ok ∅, ((_load_seen_courses d).2.1, (_load_seen_courses d).2.2)))
    by reflexivity.
  pose proof (load_resets_only_after_backup d _ _ _ _ H1 H2 H3) as H.
  destruct H as (_ & _ & Hb & _).
  split; [exact H1 | exact Hb].
Defined.

(** ** What a call does to one entry *)

(** X5. An entry whose id is not in the fetched list is left as it is or
    deleted, and it is deleted only when its [last_seen] is an offset-free
    timestamp more than 30 days old; no entry is made for an id that was
    not fetched. *)
Theorem unfetched_entry_is_kept_or_pruned (w : world) (a : agent) (k : string) :
  (∀ courses, fetch w = Returns (Some courses) → k ∉ course_id <$> courses) →
  let a' := (check_for_new_courses w a).2 in
  seen_courses a' !! k = seen_courses a !! k ∨
  (seen_courses a' !! k = None ∧
   ∃ m t, seen_courses a !! k = Some (Meta m) ∧
          last_seen m = Some (TNaive t) ∧ t < now w - days 30).
Proof.
  intros Hk a'. subst a'. rewrite check_for_new_courses_eq. cbn [snd].
  unfold cycle.
  destruct (body_outcome w a) as [[b|e] a1] eqn:E; cbn [snd].
  - apply body_outcome_ok in E
      as (_ & s & fetched & news & cur & Hr & Hf & Hs & ->).
    destruct (scan_result_facts _ _ _ _ _ Hs) as (_ & Hdom & _).
    assert (Hcur : cur !! k = None).
    { apply eq_None_not_Some. rewrite Hdom.
      destruct fetched as [courses|]; [by apply Hk|]. apply not_elem_of_nil. }
    rewrite (lookup_completed _ _ _ _ _ _ _ Hs), Hcur.
    destruct (seen_courses a !! k) as [v|]; [|by left].
    destruct (to_remove (cutoff_date w) v) eqn:Er; [|by left].
    right. split; [done|].
    apply to_remove_spec in Er as (m & t & -> & Hls & Hlt). by exists m, t.
  - apply body_outcome_raise in E as ->.
    destruct (failed_fields w e (interrupted w a)) as (-> & _).
    destruct (interrupted_fields w a) as (-> & _). by left.
Qed.

(** An empty fetch one millisecond later leaves the entry of [a]. *)
Lemma unfetched_entry_is_kept_or_pruned_witness :
  seen_courses (check_for_new_courses (quiet_world 1000) agent_a).2 !! "a"
    = Some (Meta entry_a).
Proof.
  assert (H1 : ∀ courses, fetch (quiet_world 1000) = Returns (Some courses) →
                 "a" ∉ course_id <$> courses).
  { intros courses H. inversion H; subst. apply not_elem_of_nil. }
  pose proof (unfetched_entry_is_kept_or_pruned (quiet_world 1000) agent_a "a" H1)
    as H.
  cbv zeta in H. destruct H as [H|[_ (m & t & Hm & Hls & Hlt)]].
  - rewrite H. reflexivity.
  - exfalso. cbn in Hm. inversion Hm; subst m. cbn in Hls. inversion Hls; subst t.
    vm_compute in Hlt. discriminate.
Defined.

(** X6. Once an entry has a [first_seen], no call changes it: after any
    call the entry is gone or has the same [first_seen]. *)
Theorem first_seen_is_kept
    (w : world) (a : agent) (k : string) (m : metadata) (t : jtime) :
  seen_courses a !! k = Some (Meta m) →
  first_seen m = Some t →
  let a' := (check_for_new_courses w a).2 in
  seen_courses a' !! k = None ∨
  ∃ m', seen_courses a' !! k = Some (Meta m') ∧ first_seen m' = Some t.
Proof.
  intros Hk Ht a'. subst a'. rewrite check_for_new_courses_eq. cbn [snd].
  unfold cycle.
  destruct (body_outcome w a) as [[b|e] a1] eqn:E; cbn [snd].
  - apply body_outcome_ok in E
      as (_ & s & fetched & news & cur & Hr & Hf & Hs & ->).
    destruct (scan_result_facts _ _ _ _ _ Hs) as (_ & _ & Hent).
    rewrite (lookup_completed _ _ _ _ _ _ _ Hs), Hk.
    destruct (cur !! k) as [e|] eqn:Ec.
    + right. exists e. split; [done|].
      destruct (Hent _ _ Ec) as (_ & -> & _).
      by rewrite (existing_of_meta _ _ _ Hk), Ht.
    + destruct (to_remove _ _); [by left|]. right. by exists m.
  - apply body_outcome_raise in E as ->.
    destruct (failed_fields w e (interrupted w a)) as (-> & _).
    destruct (interrupted_fields w a) as (-> & _). right. by exists m.
Qed.

(** [a], first seen at time 0, fetched again at time 1000. *)
Lemma first_seen_is_kept_witness :
  seen_courses agent_a !! "a" = Some (Meta entry_a) ∧
  first_seen entry_a = Some (TNaive 0) ∧
  ∃ m', seen_courses (check_for_new_courses (poll 1000 [course_a] true) agent_a).2
          !! "a" = Some (Meta m') ∧ first_seen m' = Some (TNaive 0).
Proof.
  assert (H1 : seen_courses agent_a !! "a" = Some (Meta entry_a)) by reflexivity.
  assert (H2 : first_seen entry_a = Some (TNaive 0)) by reflexivity.
  pose proof (first_seen_is_kept (poll 1000 [course_a] true) agent_a "a" _ _ H1 H2)
    as H.
  cbv zeta in H. split; [exact H1|]. split; [exact H2|].
  destruct H as [H|H]; [|exact H].
  exfalso. vm_compute in H. discriminate.
Defined.

Lemma elem_of_scan_log w seen courses : ∀ acc r c x,
  scan_result w seen courses acc = Ok r →
  c ∈ courses → x ∈ one_log seen c → x ∈ scan_log w seen courses.
Proof.
  induction courses as [|c0 rest IH]; intros acc r c x H Hin Hx; simpl in H.
  - by apply elem_of_nil in Hin.
  - cbn [scan_log]. destruct (pending_entry w seen c0) as [e|e]; [|done].
    apply elem_of_app.
    apply elem_of_cons in Hin as [->|Hin]; [by left|].
    right. by eapply IH.
Qed.

Lemma elem_of_completed_log w a fetched new_courses current x :
  x ∈ scan_log w (seen_courses a) (default [] fetched) →
  x ∈ completed_log w a fetched new_courses current.
Proof.
  intros H. unfold completed_log. rewrite !elem_of_app. tauto.
Qed.

(** X7. A stored value that is not a dict, for an id that is fetched in a
    call that completes, is replaced by a fresh entry: first and last seen
    now, count 1, title and url from the fetched list; the item is not
    reported as new, and a warning names the id. *)
Theorem non_dict_entry_is_reset
    (w : world) (a a' : agent) (courses : list course) (c : course) :
  check_for_new_courses w a = (Ok true, a') →
  fetch w = Returns (Some courses) →
  c ∈ courses →
  seen_courses a !! course_id c = Some NotDict →
  (∃ e, seen_courses a' !! course_id c = Some (Meta e) ∧
        first_seen e = Some (TNaive (now w)) ∧
        last_seen e = Some (TNaive (now w)) ∧
        seen_count e = Some (CInt 1)) ∧
  (c ∉ new_courses_of (seen_courses a) courses) ∧
  (WARNING, MInvalidFormat (course_id c)) ∈ log a'.
Proof.
  intros H Hf Hc Hk.
  apply check_for_new_courses_completed in H
    as (s & fetched & news & cur & Hr & Hf' & Hs & ->).
  rewrite Hf in Hf'. inversion Hf'; subst fetched. pose proof Hs as Hs0.
  change (default [] (Some courses)) with courses in Hs.
  destruct (scan_result_facts _ _ _ _ _ Hs) as (_ & Hdom & Hent).
  assert (Hcur : is_Some (cur !! course_id c)).
  { apply Hdom, list_elem_of_fmap. by exists c. }
  destruct Hcur as [e He].
  destruct (Hent _ _ He) as (Hls & Hfs & count & Hcount & Hsc).
  assert (Hex : existing_of (seen_courses a) (course_id c) = empty_dict)
    by (unfold existing_of; by rewrite Hk).
  rewrite Hex in Hfs, Hcount. cbn in Hfs, Hcount. inversion Hcount; subst count.
  split; [|split].
  - exists e. by rewrite (lookup_completed _ _ _ _ _ _ _ Hs0), He, Hk.
  - rewrite elem_of_new_courses_of, Hk. by intros [_ ?].
  - unfold completed; cbn [log]. apply elem_of_app. right.
    apply elem_of_completed_log.
    change (default [] (Some courses)) with courses.
    eapply elem_of_scan_log; [exact Hs | exact Hc |].
    unfold one_log. rewrite Hk. apply list_elem_of_here.
Qed.

Lemma non_dict_entry_is_reset_witness :
  fetch (poll 1000 [course_a] true) = Returns (Some [course_a]) ∧
  seen_courses non_dict_agent !! course_id course_a = Some NotDict ∧
  notifications
    (effects (check_for_new_courses (poll 1000 [course_a] true) non_dict_agent).2)
    = [] ∧
  (WARNING, MInvalidFormat "a")
    ∈ log (check_for_new_courses (poll 1000 [course_a] true) non_dict_agent).2.
Proof.
  set (w := poll 1000 [course_a] true).
  assert (H1 : check_for_new_courses w non_dict_agent
               = (Ok true, (check_for_new_courses w non_dict_agent).2))
    by (vm_compute; reflexivity).
  assert (H2 : fetch w = Returns (Some [course_a])) by reflexivity.
  assert (H3 : course_a ∈ [course_a]) by apply list_elem_of_here.
  assert (H4 : seen_courses non_dict_agent !! course_id course_a = Some NotDict)
    by reflexivity.
  pose proof (non_dict_entry_is_reset w non_dict_agent _ _ _ H1 H2 H3 H4) as H.
  destruct H as (_ & _ & Hlog).
  split; [exact H2|]. split; [exact H4|]. split; [reflexivity | exact Hlog].
Defined.

(** ** A count that is not a number *)

Lemma pending_entry_bad_count w seen c m :
  seen !! course_id c = Some (Meta m) → seen_count m = Some CBad →
  pending_entry w seen c = Raise TypeError.
Proof.
  intros Hk Hc. unfold pending_entry, next_count.
  by rewrite (existing_of_meta _ _ _ Hk), Hc.
Qed.

Lemma scan_result_raises w seen courses c e : ∀ acc,
  c ∈ courses → pending_entry w seen c = Raise e →
  ∃ e', scan_result w seen courses acc = Raise e'.
Proof.
  induction courses as [|c0 rest IH]; intros acc Hin Hp.
  - by apply elem_of_nil in Hin.
  - cbn [scan_result].
    apply elem_of_cons in Hin as [->|Hin]; [rewrite Hp; by eexists|].
    destruct (pending_entry w seen c0); [by apply IH | by eexists].
Qed.

Lemma bad_count_fails_call w a k m :
  seen_courses a !! k = Some (Meta m) → seen_count m = Some CBad →
  fetches_id k w →
  ∃ e, check_for_new_courses w a = (Ok false, failed w e (interrupted w a)).
Proof.
  intros Hk Hc (courses & Hf & Hin).
  apply list_elem_of_fmap in Hin as (c & -> & Hin).
  rewrite check_for_new_courses_eq. unfold cycle, body_outcome.
  destruct (ready w a) as [s|e]; [|by exists e].
  rewrite Hf. change (default [] (Some courses)) with courses.
  destruct (scan_result_raises w (seen_courses a) courses c TypeError ([], ∅) Hin)
    as [e' ->]; [by eapply pending_entry_bad_count|].
  by exists e'.
Qed.

(** X8. An entry whose [seen_count] is not a number makes every call
    whose fetched list contains its id return [False]; the seen-set stays
    as it is, entry included, nothing is notified or written, and each
    such call adds one to the error counter. *)
Theorem bad_count_blocks_every_cycle
    (ws : list world) (a : agent) (k : string) (m : metadata) :
  seen_courses a !! k = Some (Meta m) →
  seen_count m = Some CBad →
  Forall (fetches_id k) ws →
  all_fail ws a ∧
  seen_courses (run ws a) = seen_courses a ∧
  notifications (effects (run ws a)) = notifications (effects a) ∧
  writes (effects (run ws a)) = writes (effects a) ∧
  errors (health_status (run ws a)) = errors (health_status a) + len ws.
Proof.
  intros Hk Hc Hws. revert a Hk.
  induction Hws as [|w ws Hw Hws IH]; intros a Hk; cbn [run all_fail].
  - unfold len. cbn. repeat split; lia.
  - destruct (bad_count_fails_call w a k m Hk Hc Hw) as [e He].
    rewrite He. cbn [fst snd].
    destruct (failed_fields w e (interrupted w a)) as (Hs & _ & He' & _).
    destruct (interrupted_fields w a) as (Hs' & _ & _ & _ & He'' & _).
    destruct (IH (failed w e (interrupted w a))) as (Hall & -> & -> & -> & ->).
    { by rewrite Hs, Hs'. }
    rewrite Hs, Hs', He', He'', notifications_failed, notifications_interrupted,
      writes_failed, writes_interrupted.
    unfold len. cbn [length]. repeat split; try done. lia.
Qed.

Lemma bad_count_blocks_every_cycle_witness :
  seen_courses bad_count_agent !! "a" = Some (Meta bad_count_entry) ∧
  seen_count bad_count_entry = Some CBad ∧
  all_fail (replicate 3 (poll 1000 [course_a; course_b] true)) bad_count_agent ∧
  seen_courses (run (replicate 3 (poll 1000 [course_a; course_b] true))
                  bad_count_agent)
    = seen_courses bad_count_agent.
Proof.
  set (w := poll 1000 [course_a; course_b] true).
  assert (H1 : seen_courses bad_count_agent !! "a" = Some (Meta bad_count_entry))
    by reflexivity.
  assert (H2 : seen_count bad_count_entry = Some CBad) by reflexivity.
  assert (Hw : fetches_id "a" w).
  { exists [course_a; course_b]. split; [reflexivity|]. apply list_elem_of_here. }
  assert (H3 : Forall (fetches_id "a") (replicate 3 w)).
  { repeat constructor; exact Hw. }
  pose proof (bad_count_blocks_every_cycle (replicate 3 w) bad_count_agent "a" _
                H1 H2 H3) as H.
  destruct H as (Hall & Hs & _).
  split; [exact H1|]. split; [exact H2|]. split; [exact Hall | exact Hs].
Defined.

(** ** The notifier and the health counters *)

(** X9. A call that completes hands the notifier the fetched items whose
    id is not in the seen-set, in the order of the fetched list and with
    its repetitions, in one batch, and does not call it when there is no
    such item. *)
Theorem notifier_gets_the_unseen_items
    (w : world) (a a' : agent) (fetched : option (list course)) :
  check_for_new_courses w a = (Ok true, a') →
  fetch w = Returns fetched →
  notifications (effects a') =
    notifications (effects a) ++
    match new_courses_of (seen_courses a) (default [] fetched) with
    | [] => []
    | (_ :: _) as batch => [batch]
    end.
Proof.
  intros H Hf.
  apply check_for_new_courses_completed in H
    as (s & fetched' & news & cur & Hr & Hf' & Hs & ->).
  rewrite Hf in Hf'. inversion Hf'; subst fetched'.
  destruct (scan_result_facts _ _ _ _ _ Hs) as (<- & _).
  unfold completed; cbn [effects].
  rewrite notifications_app, notifications_completed. by destruct news.
Qed.

(** [b] fetched twice while only [a] is known: the batch lists it twice. *)
Lemma notifier_gets_the_unseen_items_witness :
  fetch (poll 1000 [course_b; course_a; course_b] true)
    = Returns (Some [course_b; course_a; course_b]) ∧
  notifications
    (effects
       (check_for_new_courses (poll 1000 [course_b; course_a; course_b] true)
          agent_a).2)
    = [[course_b; course_b]].
Proof.
  set (w := poll 1000 [course_b; course_a; course_b] true).
  assert (H1 : check_for_new_courses w agent_a
               = (Ok true, (check_for_new_courses w agent_a).2))
    by (vm_compute; reflexivity).
  assert (H2 : fetch w = Returns (Some [course_b; course_a; course_b]))
    by reflexivity.
  pose proof (notifier_gets_the_unseen_items w agent_a _ _ H1 H2) as H.
  split; [exact H2|]. rewrite H. reflexivity.
Defined.

(** X10. In every call the notifier is called at most once;
    [emails_sent] grows by one when it was called and the exchange went
    through and stays otherwise; [errors] grows by one when the call
    returns [False] or the notifier was called and failed, and stays
    otherwise; [courses_found] grows by the length of the fetched list,
    also when the call fails after the fetch. *)
Theorem health_counters_follow_the_call (w : world) (a : agent) :
  let r := check_for_new_courses w a in
  let h := health_status a in
  let h' := health_status r.2 in
  ∃ sent,
    notifications (effects r.2) = notifications (effects a) ++ sent ∧
    (length sent ≤ 1)%nat ∧
    emails_sent h' = emails_sent h + (if smtp_ok w then len sent else 0) ∧
    errors h' =
      errors h + match r.1 with
                 | Ok true => if smtp_ok w then 0 else len sent
                 | _ => 1
                 end ∧
    courses_found h' =
      courses_found h + match ready w a, fetch w with
                        | Returns _, Returns fetched => len (default [] fetched)
                        | _, _ => 0
                        end.
Proof.
  intros r h h'. subst r h h'. rewrite check_for_new_courses_eq.
  cbn [fst snd]. unfold cycle.
  destruct (body_outcome w a) as [[b|e] a1] eqn:E; cbn [fst snd].
  - apply body_outcome_ok in E
      as (-> & s & fetched & news & cur & Hr & Hf & Hs & ->).
    rewrite Hr, Hf.
    exists (match news with [] => [] | _ :: _ => [news] end).
    unfold completed; cbn [effects health_status].
    rewrite notifications_app, notifications_completed.
    unfold completed_health, delivered, undelivered, len; cbn.
    destruct news as [|c news]; destruct (smtp_ok w); cbn;
      repeat split; lia.
  - apply body_outcome_raise in E as ->.
    exists []. rewrite notifications_failed, notifications_interrupted, app_nil_r.
    assert (Hh : health_status (failed w e (interrupted w a))
                 = set_status Error
                     (set_errors (errors (health_status (interrupted w a)) + 1)
                        (health_status (interrupted w a)))).
    { unfold failed. destruct (restart_due _); [|done].
      by destruct (restarted_fields w
                     (add_logs [(ERROR, MTooMany
                                   (consecutive_failures (interrupted w a) + 1))]
                        (counted e (interrupted w a)))) as (_ & -> & _). }
    rewrite Hh. unfold interrupted, body_outcome.
    destruct (ready w a) as [s|e0]; [destruct (fetch w) as [fetched|e0]|];
      unfold len; cbn; destruct (smtp_ok w); repeat split; lia.
Qed.

(** ** Recovery *)

Lemma restart_attempts_save_log w m : restart_attempts (save_log w m) = 0%nat.
Proof. unfold save_log. by destruct (disk_ok w). Qed.

Lemma restart_attempts_completed_log w a fetched new_courses current :
  restart_attempts (completed_log w a fetched new_courses current) = 0%nat.
Proof.
  unfold completed_log, init_log.
  destruct (scraper a), fetched, new_courses, (smtp_ok w),
    (courses_to_remove _ _); cbn [app];
    repeat rewrite ?restart_attempts_app, ?restart_attempts_cons,
      ?restart_attempts_save_log, ?restart_attempts_scan_log;
    reflexivity.
Qed.

Lemma quit_not_in_completed_effects w a new_courses current :
  QuitDriver ∉ completed_effects w a new_courses current.
Proof.
  unfold completed_effects, init_effects.
  destruct (scraper a), new_courses, (smtp_ok w), (courses_to_remove _ _);
    cbn [app]; intros H;
    repeat (apply elem_of_cons in H as [H|H]; [discriminate H|]);
    by apply elem_of_nil in H.
Qed.

(** X11. A call that completes never attempts a restart, whatever the
    value of [consecutive_failures]: a notifier that fails adds one to the
    counter, beyond [max_consecutive_failures] too, and the driver is not
    quit. *)
Theorem lost_notification_never_triggers_recovery (w : world) (a a' : agent) :
  check_for_new_courses w a = (Ok true, a') →
  restart_attempts (log a') = restart_attempts (log a) ∧
  (QuitDriver ∉ calls_since a a') ∧
  (smtp_ok w = false →
   notifications (effects a') ≠ notifications (effects a) →
   consecutive_failures a' = consecutive_failures a + 1).
Proof.
  intros H.
  apply check_for_new_courses_completed in H
    as (s & fetched & news & cur & Hr & Hf & Hs & ->).
  split; [|split].
  - unfold completed; cbn [log].
    rewrite restart_attempts_app, restart_attempts_completed_log. lia.
  - rewrite calls_since_completed. apply quit_not_in_completed_effects.
  - intros Hsmtp Hn. unfold completed in *; cbn [effects consecutive_failures] in *.
    rewrite notifications_app, notifications_completed in Hn.
    unfold completed_failures. rewrite Hsmtp.
    destruct news; [|done]. by rewrite app_nil_r in Hn.
Qed.

(** Six polls that each find [b] and cannot deliver it: the counter
    passes the threshold of 5 and no restart is attempted. *)
Lemma lost_notification_never_triggers_recovery_witness :
  consecutive_failures (run (replicate 5 (poll 1000 [course_b] false)) agent_a)
    = max_consecutive_failures agent_a ∧
  consecutive_failures (run (replicate 6 (poll 1000 [course_b] false)) agent_a)
    = 6 ∧
  restart_attempts
    (log (run (replicate 6 (poll 1000 [course_b] false)) agent_a)) = 0%nat.
Proof.
  set (w := poll 1000 [course_b] false).
  set (a5 := run (replicate 5 w) agent_a).
  assert (H1 : check_for_new_courses w a5
               = (Ok true, run (replicate 6 w) agent_a))
    by (vm_compute; reflexivity).
  pose proof (lost_notification_never_triggers_recovery w a5 _ H1) as H.
  destruct H as (Hatt & _ & Hcf).
  split; [by vm_compute|]. split.
  - rewrite Hcf; [by vm_compute | reflexivity | by vm_compute].
  - rewrite Hatt. by vm_compute.
Defined.

Lemma failed_scraper_kept w e a s :
  scraper a = Some s → quit_fails w →
  scraper (failed w e a) = Some s.
Proof.
  intros Hs [e' Hq]. unfold failed, restarted, restart_result, counted.
  destruct (restart_due a); [|done]. cbn. by rewrite Hs, Hq.
Qed.

Lemma interrupted_scraper w a s :
  scraper a = Some s → scraper (interrupted w a) = Some s.
Proof.
  intros Hs. unfold interrupted, ready. rewrite Hs. by destruct (fetch w).
Qed.

Lemma restart_result_quit_fails w a s :
  scraper a = Some s → quit_fails w → ∃ e, restart_result w a = Throws e.
Proof. intros Hs [e Hq]. unfold restart_result. rewrite Hs, Hq. by exists e. Qed.

(** X12. While the agent holds a scraper whose driver cannot be quit,
    recovery cannot succeed: from the threshold on, every call that fails
    attempts a restart, each attempt fails, the scraper stays the same and
    [consecutive_failures] keeps growing. *)
Theorem recovery_is_stuck_when_quit_fails
    (ws : list world) (a : agent) (s : scraper_t) :
  scraper a = Some s →
  restart_on_failure a = true →
  max_consecutive_failures a ≤ consecutive_failures a + 1 →
  Forall quit_fails ws →
  all_fail ws a →
  scraper (run ws a) = Some s ∧
  consecutive_failures (run ws a) = consecutive_failures a + len ws ∧
  restart_attempts (log (run ws a)) = (restart_attempts (log a) + length ws)%nat.
Proof.
  intros Hs Hrof Hmax Hws. revert a Hs Hrof Hmax.
  induction Hws as [|w ws Hw Hws IH]; intros a Hs Hrof Hmax Hall;
    cbn [run all_fail] in *.
  - split; [done|]. split; [unfold len; cbn; lia | cbn [length]; lia].
  - destruct Hall as [Hfail Hall].
    destruct (failed_call _ _ Hfail) as [e He]. rewrite He in *.
    pose proof (interrupted_scraper w a s Hs) as Hs1.
    destruct (interrupted_fields w a) as (_ & Hcf & Hmx & Hrf & _).
    destruct (failed_fields w e (interrupted w a)) as (_ & _ & _ & Hmx' & Hrf' & _).
    assert (Hdue : restart_due (interrupted w a) = true).
    { rewrite restart_due_interrupted. unfold restart_due.
      rewrite Hrof, bool_decide_eq_true_2; [done | lia]. }
    pose proof (failed_consecutive_failures w e (interrupted w a)) as Hc.
    pose proof (restart_attempts_failed w e (interrupted w a)) as Ha.
    rewrite Hdue in Hc, Ha.
    destruct (restart_result_quit_fails w _ s Hs1 Hw) as [e' Hr].
    rewrite Hr in Hc. rewrite restart_attempts_interrupted in Ha.
    destruct (IH (failed w e (interrupted w a))) as (-> & -> & ->).
    + by apply failed_scraper_kept.
    + by rewrite Hrf', Hrf.
    + rewrite Hmx', Hmx, Hc, Hcf. lia.
    + exact Hall.
    + rewrite Hc, Hcf, Ha. unfold len. cbn [length].
      split; [done|]. split; lia.
Qed.

(** Three failing fetches on an agent that has already failed four times
    and whose driver raises on [quit]. *)
Lemma recovery_is_stuck_when_quit_fails_witness :
  scraper worn_agent = Some (Scraper true) ∧
  max_consecutive_failures worn_agent ≤ consecutive_failures worn_agent + 1 ∧
  all_fail (replicate 3 broken_world) worn_agent ∧
  consecutive_failures (run (replicate 3 broken_world) worn_agent) = 7 ∧
  restart_attempts (log (run (replicate 3 broken_world) worn_agent)) = 3%nat.
Proof.
  assert (H1 : scraper worn_agent = Some (Scraper true)) by reflexivity.
  assert (H2 : restart_on_failure worn_agent = true) by reflexivity.
  assert (H3 : max_consecutive_failures worn_agent
               ≤ consecutive_failures worn_agent + 1) by (vm_compute; discriminate).
  assert (Hq : quit_fails broken_world) by (by exists AttributeError).
  assert (H4 : Forall quit_fails (replicate 3 broken_world))
    by (repeat constructor; exact Hq).
  assert (H5 : all_fail (replicate 3 broken_world) worn_agent).
  { vm_compute. repeat split. }
  pose proof (recovery_is_stuck_when_quit_fails (replicate 3 broken_world)
                worn_agent _ H1 H2 H3 H4 H5) as H.
  destruct H as (_ & Hcf & Hatt).
  split; [exact H1|]. split; [exact H3|]. split; [exact H5|].
  split; [rewrite Hcf; reflexivity | rewrite Hatt; reflexivity].
Defined.

(** ** Pruning and the file *)

Lemma courses_to_remove_prune cutoff seen :
  courses_to_remove cutoff (prune cutoff seen) = [].
Proof.
  destruct (courses_to_remove cutoff (prune cutoff seen)) as [|k ks] eqn:E;
    [done|].
  assert (H : k ∈ courses_to_remove cutoff (prune cutoff seen))
    by (rewrite E; apply list_elem_of_here).
  apply elem_of_courses_to_remove in H as (v & Hv & Hr).
  rewrite lookup_prune in Hv.
  destruct (seen !! k) as [v0|]; [|done].
  destruct (to_remove cutoff v0) eqn:E0; [done|].
  inversion Hv; subst. congruence.
Qed.

Lemma set_seen_courses_id a : set_seen_courses (seen_courses a) a = a.
Proof. by destruct a. Qed.

(** X13. A prune pass deletes entries and adds none, and it hands the
    seen-set to the store exactly when it deleted something; a second pass
    at the same instant changes nothing and makes no call. *)
Theorem cleanup_writes_when_it_deletes (w : world) (a : agent) :
  let a' := (_cleanup_old_courses w a).2 in
  seen_courses a' ⊆ seen_courses a ∧
  ((seen_courses a' = seen_courses a ∧ calls_since a a' = []) ∨
   (seen_courses a' ≠ seen_courses a ∧
    calls_since a a' = [WriteSeen (seen_courses a') (disk_ok w)])) ∧
  _cleanup_old_courses w a' = (Ok tt, a').
Proof.
  intros a'. subst a'. split; [|split].
  - rewrite seen_courses_cleanup. apply map_subseteq_spec. intros k v.
    rewrite lookup_prune. destruct (seen_courses a !! k) as [v0|]; [|done].
    by destruct (to_remove _ v0).
  - rewrite _cleanup_old_courses_eq. cbn [snd]. unfold cleaned, calls_since.
    destruct (courses_to_remove _ _) as [|k ks] eqn:E.
    + left. rewrite (prune_nothing _ _ E). split; [done|].
      rewrite set_seen_courses_id. apply drop_all.
    + right. split.
      * cbn. intros Heq.
        assert (Hk : k ∈ courses_to_remove (cutoff_date w) (seen_courses a))
          by (rewrite E; apply list_elem_of_here).
        apply elem_of_courses_to_remove in Hk as (v & Hv & Hr).
        apply (f_equal (λ m : gmap string stored, m !! k)) in Heq.
        cbn beta in Heq. rewrite lookup_prune, Hv, Hr in Heq. done.
      * cbn. apply drop_app_length.
  - rewrite (_cleanup_old_courses_eq w (_cleanup_old_courses w a).2).
    f_equal. unfold cleaned. rewrite seen_courses_cleanup.
    rewrite courses_to_remove_prune.
    rewrite (prune_nothing _ _ (courses_to_remove_prune _ _)).
    rewrite <- seen_courses_cleanup. apply set_seen_courses_id.
Qed.

(** * Properties of [stop] and of the health monitor *)

Ltac run_op :=
  cbv [op_bind op_try op_ret op_raise on_self emit op_logger op_lift
       self events set_is_running];
  run_py.

Lemma _save_health_status_eq h p :
  _save_health_status h p =
    (Ok tt, Process (self p) (events p ++ health_saved h (self p))).
Proof.
  unfold _save_health_status, health_saved. destruct p as [a ev].
  run_op. destruct (health_file_ok h); run_op; by rewrite <- ?app_assoc.
Qed.

Lemma stop_eq w h p : stop w h p = (Ok tt, stopped h p).
Proof.
  unfold stop, stopped, stopped_agent.
  destruct p as [a ev].
  destruct a as [sc seen run lsc cf mx hci rof hs lg eff].
  destruct hs as [st lc fnd sent errs stt pd]. run_op.
  destruct sc as [s|]; [destruct (quit_driver w) as [[]|e]|]; run_op;
    rewrite _save_health_status_eq; run_op;
    rewrite <- ?app_assoc; reflexivity.
Qed.

Lemma health_check_eq w h p :
  health_check w h p =
    (Ok tt, Process (checked_agent w h (self p))
              (events p ++ check_events w h (self p))).
Proof.
  unfold health_check, check_events, checked_agent, is_overdue.
  destruct p as [a ev].
  destruct a as [sc seen run lsc cf mx hci rof hs lg eff].
  destruct hs as [st lc fnd sent errs stt pd]. run_op.
  destruct lsc as [last|]; [destruct (overdue (now w) last)|]; run_op.
  1: destruct sc as [s|]; [destruct (driver_title h) as [t|e]|]; run_op.
  2: rewrite _restart_scraper_eq; run_op.
  2: match goal with
     | |- context [restarted w ?x] => destruct (restarted w x) eqn:Er
     end; run_op.
  all: rewrite _save_health_status_eq; run_op.
  all: rewrite <- ?app_assoc; cbn [app]; try reflexivity.
Qed.

Lemma health_writes_app l1 l2 :
  health_writes (l1 ++ l2) = health_writes l1 ++ health_writes l2.
Proof. apply omap_app. Qed.

Lemma health_writes_health_saved h a :
  health_writes (health_saved h a) = [(health_status a, health_file_ok h)].
Proof. unfold health_saved. by destruct (health_file_ok h). Qed.

Lemma health_writes_check_events w h a :
  health_writes (check_events w h a)
    = [(health_status (checked_agent w h a), health_file_ok h)].
Proof.
  unfold check_events.
  rewrite !health_writes_app, health_writes_health_saved.
  destruct (is_overdue w a); [|done].
  destruct (scraper a); [destruct (driver_title h)|]; reflexivity.
Qed.

Lemma is_overdue_spec w a :
  is_overdue w a = true ↔
  ∃ t, last_successful_check a = Some t ∧ 129600 * 1000000 < now w - t.
Proof.
  unfold is_overdue, overdue, CHECK_INTERVAL_HOURS.
  destruct (last_successful_check a) as [t|].
  - rewrite bool_decide_eq_true. split.
    + intros H. exists t. split; [done | lia].
    + intros (t' & Ht & H). inversion Ht; subst. lia.
  - split; [done | by intros (t & ? & _)].
Qed.

Lemma _health_monitor_not_running passes p :
  is_running (self p) = false → _health_monitor passes p = (Ok tt, p).
Proof.
  intros H. destruct passes as [|[w h] rest]; [done|].
  cbn [_health_monitor]. unfold op_bind, on_self, get.
  destruct p as [a ev]. cbn [self events] in *. by rewrite H.
Qed.

Lemma _health_monitor_cons w h rest p :
  is_running (self p) = true →
  _health_monitor ((w, h) :: rest) p =
    _health_monitor rest
      (Process (checked_agent w h (self p))
         (events p ++ check_events w h (self p))).
Proof.
  intros H. cbn [_health_monitor]. unfold op_bind, on_self, get.
  by rewrite H, health_check_eq.
Qed.

Lemma _health_monitor_events passes : ∀ q,
  ∃ l, events (_health_monitor passes q).2 = events q ++ l.
Proof.
  induction passes as [|[w h] rest IH]; intros q.
  - exists []. by rewrite app_nil_r.
  - destruct (is_running (self q)) eqn:Hq.
    + rewrite (_health_monitor_cons _ _ _ _ Hq).
      destruct (IH (Process (checked_agent w h (self q))
                      (events q ++ check_events w h (self q)))) as [l Hl].
      exists (check_events w h (self q) ++ l).
      rewrite Hl. cbn [events]. by rewrite <- app_assoc.
    + rewrite (_health_monitor_not_running _ _ Hq).
      exists []. by rewrite app_nil_r.
Qed.

(** X14. [stop] always returns, whatever [driver.quit()] and the health
    file do: the flag [is_running] is off, the status is [stopped] and is
    what is written to the health file, the seen-set is not touched and
    not written, and the loop of the health monitor ends at its next
    test. *)
Theorem stop_always_stops
    (w : world) (h : host) (p : process) (passes : list (world * host)) :
  ∃ p',
    stop w h p = (Ok tt, p') ∧
    is_running (self p') = false ∧
    status (health_status (self p')) = Stopped ∧
    seen_courses (self p') = seen_courses (self p) ∧
    writes (effects (self p')) = writes (effects (self p)) ∧
    health_writes (events p') =
      health_writes (events p) ++ [(health_status (self p'), health_file_ok h)] ∧
    _health_monitor passes p' = (Ok tt, p').
Proof.
  exists (stopped h p). split; [apply stop_eq|].
  assert (Hrun : is_running (self (stopped h p)) = false).
  { unfold stopped, stopped_agent; cbn. by destruct (scraper (self p)). }
  split; [exact Hrun|].
  split; [unfold stopped, stopped_agent; cbn; by destruct (scraper (self p))|].
  split; [unfold stopped, stopped_agent; cbn; by destruct (scraper (self p))|].
  split; [|split].
  - unfold stopped, stopped_agent; cbn.
    destruct (scraper (self p)); cbn; [|done].
    by rewrite writes_app, app_nil_r.
  - unfold stopped; cbn [events self].
    rewrite !health_writes_app, health_writes_health_saved. cbn.
    by rewrite ?app_nil_r.
  - by apply _health_monitor_not_running.
Qed.

(** X15. While the last successful check is at most 36 hours old, or
    there has been none, the health monitor changes nothing in the agent:
    it does not touch the status, does not read the driver and does not
    restart the scraper; each pass writes the health file once, with the
    status as it is. *)
Theorem monitor_leaves_a_timely_agent
    (passes : list (world * host)) (p : process) :
  (∀ t w h, last_successful_check (self p) = Some t → (w, h) ∈ passes →
     now w - t ≤ 129600 * 1000000) →
  ∃ p',
    _health_monitor passes p = (Ok tt, p') ∧
    self p' = self p ∧
    (is_running (self p) = true →
     health_writes (events p') =
       health_writes (events p)
       ++ ((λ wh, (health_status (self p), health_file_ok wh.2)) <$> passes)) ∧
    ReadTitle ∉ drop (length (events p)) (events p').
Proof.
  revert p. induction passes as [|[w h] rest IH]; intros p Hp.
  - exists p. split; [done|]. split; [done|]. split.
    + intros _. cbn. by rewrite app_nil_r.
    + rewrite drop_all. apply not_elem_of_nil.
  - destruct (is_running (self p)) eqn:Hrun.
    2:{ exists p. split; [by apply _health_monitor_not_running|].
        split; [done|]. split; [done|].
        rewrite drop_all. apply not_elem_of_nil. }
    assert (Hov : is_overdue w (self p) = false).
    { apply not_true_is_false. intros H.
      apply is_overdue_spec in H as (t & Ht & Hlt).
      pose proof (Hp t w h Ht (list_elem_of_here _ _)). lia. }
    assert (Hc : checked_agent w h (self p) = self p).
    { unfold checked_agent. by rewrite Hov. }
    rewrite (_health_monitor_cons _ _ _ _ Hrun), Hc.
    set (p1 := Process (self p) (events p ++ check_events w h (self p))).
    destruct (IH p1) as (p' & Hm & Hself & Hw & Hread).
    { intros t w' h' Ht Hin. apply (Hp t w' h' Ht). by apply list_elem_of_further. }
    exists p'. split; [exact Hm|]. split; [exact Hself|]. split.
    + intros _. rewrite (Hw Hrun). subst p1. cbn [events self].
      rewrite health_writes_app, health_writes_check_events, Hc.
      rewrite fmap_cons. cbn [snd]. by rewrite <- app_assoc.
    + subst p1. cbn [events] in Hread. rewrite length_app in Hread.
      rewrite <- drop_drop in Hread. intros Hin. apply Hread.
      assert (Hpre : ∃ l, events p' = (events p ++ check_events w h (self p)) ++ l).
      { destruct (_health_monitor_events rest
                    (Process (self p) (events p ++ check_events w h (self p))))
          as [l Hl].
        rewrite Hm in Hl. by exists l. }
      destruct Hpre as [l Hl]. rewrite Hl in Hin |- *.
      rewrite <- app_assoc, drop_app_length in Hin.
      rewrite <- app_assoc, drop_app_length, drop_app_length.
      apply elem_of_app in Hin as [Hin|Hin]; [|done].
      exfalso. unfold check_events in Hin. rewrite Hov, Hc in Hin.
      unfold health_saved in Hin. cbn [app] in Hin.
      destruct (health_file_ok h); cbn [app] in Hin;
        repeat (apply elem_of_cons in Hin as [Hin|Hin]; [discriminate Hin|]);
        by apply elem_of_nil in Hin.
Qed.

(** Two passes, one and two days after start, on an agent that has never
    completed a check. *)
Lemma monitor_leaves_a_timely_agent_witness :
  last_successful_check (set_is_running true fresh_agent) = None ∧
  self (_health_monitor [(quiet_world (days 1), live_host); (late_world, dead_host)]
          (Process (set_is_running true fresh_agent) [])).2
    = set_is_running true fresh_agent.
Proof.
  set (p := Process (set_is_running true fresh_agent) []).
  set (passes := [(quiet_world (days 1), live_host); (late_world, dead_host)]).
  assert (H1 : ∀ t w h, last_successful_check (self p) = Some t →
                 (w, h) ∈ passes → now w - t ≤ 129600 * 1000000).
  { intros t w h Ht. discriminate Ht. }
  destruct (monitor_leaves_a_timely_agent passes p H1) as (p' & Hm & Hs & _).
  split; [reflexivity|]. rewrite Hm. exact Hs.
Defined.

(** X16. When the last successful check is more than 36 hours old and
    the driver of the scraper still answers, one pass of the health
    monitor leaves the status [healthy], whatever it was before, and
    writes that to the health file; nothing else in the agent changes. *)
Theorem overdue_agent_with_live_driver_is_reported_healthy
    (w : world) (h : host) (p : process) (t : Z) (s : scraper_t)
    (page_title : string) :
  last_successful_check (self p) = Some t →
  129600 * 1000000 < now w - t →
  scraper (self p) = Some s →
  driver_title h = Returns page_title →
  ∃ p',
    health_check w h p = (Ok tt, p') ∧
    self p' =
      set_health_status (set_status Healthy (health_status (self p))) (self p) ∧
    health_writes (events p') =
      health_writes (events p)
      ++ [(set_status Healthy (health_status (self p)), health_file_ok h)].
Proof.
  intros Ht Hlt Hs Hd.
  assert (Hov : is_overdue w (self p) = true)
    by (apply is_overdue_spec; by exists t).
  assert (Hc : checked_agent w h (self p) =
               set_health_status (set_status Healthy (health_status (self p)))
                 (self p)).
  { unfold checked_agent. by rewrite Hov, Hs, Hd. }
  eexists. split; [apply health_check_eq|]. cbn [self events].
  split; [exact Hc|].
  by rewrite health_writes_app, health_writes_check_events, Hc.
Qed.

(** The last success is two days old, the status is [error], the driver
    answers: the health file says [healthy]. *)
Lemma overdue_agent_with_live_driver_is_reported_healthy_witness :
  status (health_status idle_agent) = Error ∧
  129600 * 1000000 < now late_world - 0 ∧
  status (health_status
            (self (health_check late_world live_host (Process idle_agent [])).2))
    = Healthy.
Proof.
  assert (H1 : last_successful_check (self (Process idle_agent [])) = Some 0)
    by reflexivity.
  assert (H2 : 129600 * 1000000 < now late_world - 0) by reflexivity.
  assert (H3 : scraper (self (Process idle_agent [])) = Some (Scraper true))
    by reflexivity.
  assert (H4 : driver_title live_host = Returns "Udemy") by reflexivity.
  destruct (overdue_agent_with_live_driver_is_reported_healthy late_world
              live_host (Process idle_agent []) 0 _ _ H1 H2 H3 H4)
    as (p' & Hc & Hs & _).
  split; [reflexivity|]. split; [exact H2|]. rewrite Hc. cbn [snd].
  rewrite Hs. reflexivity.
Defined.

(** X17. When the last successful check is more than 36 hours old and
    reading the driver raises, the pass calls [_restart_scraper]: the
    status stays [degraded], the seen-set is not touched, and when the
    restart goes through the agent holds the new scraper and
    [consecutive_failures] is back to 0, although no check has succeeded. *)
Theorem health_check_restarts_a_dead_driver
    (w : world) (h : host) (p : process) (t : Z) (s : scraper_t) (e : exn) :
  last_successful_check (self p) = Some t →
  129600 * 1000000 < now w - t →
  scraper (self p) = Some s →
  driver_title h = Throws e →
  ∃ p',
    health_check w h p = (Ok tt, p') ∧
    self p' =
      (_restart_scraper w
         (set_health_status (set_status Degraded (health_status (self p)))
            (self p))).2 ∧
    status (health_status (self p')) = Degraded ∧
    seen_courses (self p') = seen_courses (self p) ∧
    last_successful_check (self p') = Some t ∧
    match restart_result w (self p) with
    | Returns s' =>
        scraper (self p') = Some s' ∧ consecutive_failures (self p') = 0
    | Throws _ =>
        consecutive_failures (self p') = consecutive_failures (self p)
    end.
Proof.
  intros Ht Hlt Hs Hd.
  assert (Hov : is_overdue w (self p) = true)
    by (apply is_overdue_spec; by exists t).
  set (a1 := set_health_status (set_status Degraded (health_status (self p)))
               (self p)).
  assert (Hc : checked_agent w h (self p) = restarted w a1).
  { unfold checked_agent. by rewrite Hov, Hs, Hd. }
  eexists. split; [apply health_check_eq|]. cbn [self events]. rewrite Hc.
  split; [by rewrite _restart_scraper_eq|].
  destruct (restarted_fields w a1) as (-> & -> & _ & _ & ->).
  split; [done|]. split; [done|]. split; [done|].
  unfold restarted.
  change (restart_result w a1) with (restart_result w (self p)).
  by destruct (restart_result w (self p)).
Qed.

(** The same agent after three failed calls, with a driver that no
    longer answers and can be replaced: the counter is reset. *)
Lemma health_check_restarts_a_dead_driver_witness :
  consecutive_failures (set_consecutive_failures 3 idle_agent) = 3 ∧
  consecutive_failures
    (self (health_check late_world dead_host
             (Process (set_consecutive_failures 3 idle_agent) [])).2) = 0 ∧
  status
    (health_status
       (self (health_check late_world dead_host
                (Process (set_consecutive_failures 3 idle_agent) [])).2))
    = Degraded.
Proof.
  set (p := Process (set_consecutive_failures 3 idle_agent) []).
  assert (H1 : last_successful_check (self p) = Some 0) by reflexivity.
  assert (H2 : 129600 * 1000000 < now late_world - 0) by reflexivity.
  assert (H3 : scraper (self p) = Some (Scraper true)) by reflexivity.
  assert (H4 : driver_title dead_host = Throws WebDriverError) by reflexivity.
  destruct (health_check_restarts_a_dead_driver late_world dead_host p 0 _ _
              H1 H2 H3 H4) as (p' & Hc & _ & Hst & _ & _ & Hr).
  rewrite Hc. cbn [snd].
  split; [reflexivity|]. split; [|exact Hst].
  change (restart_result late_world (self p)) with
    (Returns (A := scraper_t) (Scraper true)) in Hr.
  by destruct Hr.
Defined.

(** * Properties of the scheduler *)

Lemma slices_sum k : ∀ sleep_time slept,
  k = Z.to_nat ((sleep_time - slept + 59) / 60) →
  slept ≤ sleep_time →
  foldr Z.add 0 (slices k sleep_time slept) = sleep_time - slept.
Proof.
  induction k as [|k IH]; intros sleep_time slept Hk Hle; cbn [slices foldr].
  - assert ((sleep_time - slept + 59) / 60 ≤ 0) by lia.
    destruct (decide (sleep_time - slept ≤ 0)); [lia|].
    assert (1 ≤ (sleep_time - slept + 59) / 60); [|lia].
    apply Z.div_le_lower_bound; lia.
  - assert (Hpos : slept < sleep_time).
    { destruct (decide (slept < sleep_time)); [done|].
      assert ((sleep_time - slept + 59) / 60 ≤ 0); [|lia].
      apply Z.lt_succ_r, Z.div_lt_upper_bound; lia. }
    destruct (decide (sleep_time - slept ≤ 60)) as [Hlast|Hmore].
    + assert (Hone : (sleep_time - slept + 59) / 60 = 1).
      { symmetry. apply (Z.div_unique _ _ _ (sleep_time - slept - 1)); lia. }
      assert (k = 0%nat) as -> by lia. cbn [slices foldr]. lia.
    + rewrite IH; [lia | | lia].
      replace (sleep_time - slept + 59) with
        ((sleep_time - (slept + 60) + 59) + 1 * 60) in Hk by lia.
      rewrite Z.div_add in Hk by lia.
      assert (0 ≤ (sleep_time - (slept + 60) + 59) / 60)
        by (apply Z.div_pos; lia).
      lia.
Qed.

Lemma slices_bounds k : ∀ sleep_time slept,
  slept + 60 * (Z.of_nat k - 1) < sleep_time →
  Forall (λ t, 0 < t ≤ 60) (slices k sleep_time slept).
Proof.
  induction k as [|k IH]; intros sleep_time slept H; cbn [slices];
    constructor; [lia|].
  apply IH. lia.
Qed.

Lemma length_slices k sleep_time slept : length (slices k sleep_time slept) = k.
Proof. revert slept. induction k as [|k IH]; intros slept; cbn; by rewrite ?IH. Qed.

Lemma sleep_loop_undisturbed sigs sleep_time fuel : ∀ slept n p,
  (∀ k, sigs k = None) →
  is_running (self p) = true →
  (Z.to_nat (sleep_time - slept) < fuel)%nat →
  sleep_loop fuel sigs sleep_time slept n p =
    (Ok Left,
     Process (self p)
       (events p ++
        (Sleep <$> slices (Z.to_nat ((sleep_time - slept + 59) / 60))
                     sleep_time slept))).
Proof.
  induction fuel as [|fuel IH]; intros slept n p Hs Hrun Hfuel; [lia|].
  cbn [sleep_loop]. unfold op_bind, on_self, get at 1.
  destruct p as [a ev]. cbn [self events] in *. rewrite Hrun.
  case_bool_decide as Hlt; cbn [andb].
  - unfold emit, op_ret, get. cbn [self events]. rewrite Hs. cbn [self events].
    rewrite Hrun. cbn [negb].
    rewrite IH; [|done|done|lia]. cbn [self events].
    assert (Hk : Z.to_nat ((sleep_time - slept + 59) / 60)
                 = S (Z.to_nat ((sleep_time - (slept + 60) + 59) / 60))).
    { replace (sleep_time - slept + 59) with
        ((sleep_time - (slept + 60) + 59) + 1 * 60) by lia.
      rewrite Z.div_add by lia.
      assert (-1 < (sleep_time - (slept + 60) + 59) / 60); [|lia].
      assert (0 ≤ (sleep_time - (slept + 60) + 59) / 60); [|lia]. apply Z.div_pos; lia. }
    rewrite Hk. cbn [slices fmap list_fmap]. by rewrite <- app_assoc.
  - assert (Hz : (sleep_time - slept + 59) / 60 ≤ 0).
    { apply Z.lt_succ_r, Z.div_lt_upper_bound; lia. }
    replace (Z.to_nat ((sleep_time - slept + 59) / 60)) with 0%nat by lia.
    cbn. by rewrite app_nil_r.
Qed.

(** X18. Without a signal, the loop that waits for the next check calls
    [time.sleep] with arguments that add up to exactly [sleep_time], each
    of them positive and at most 60 seconds, and leaves the agent as it
    is; a [sleep_time] that is not a multiple of 60 is not overslept,
    although [slept] advances by 60 each time. *)
Theorem sleep_loop_sleeps_the_interval
    (sigs : nat → option interrupt) (sleep_time : Z) (p : process) :
  (∀ k, sigs k = None) →
  is_running (self p) = true →
  0 ≤ sleep_time →
  ∃ naps,
    sleep_loop (S (Z.to_nat sleep_time)) sigs sleep_time 0 0 p
      = (Ok Left, Process (self p) (events p ++ (Sleep <$> naps))) ∧
    foldr Z.add 0 naps = sleep_time ∧
    Forall (λ t, 0 < t ≤ 60) naps ∧
    length naps = Z.to_nat ((sleep_time + 59) / 60).
Proof.
  intros Hs Hrun Hpos.
  exists (slices (Z.to_nat ((sleep_time - 0 + 59) / 60)) sleep_time 0).
  split; [|split; [|split]].
  - apply sleep_loop_undisturbed; [done..|]. lia.
  - rewrite slices_sum; [lia | done | lia].
  - apply slices_bounds.
    assert (0 ≤ (sleep_time - 0 + 59) / 60) by (apply Z.div_pos; lia).
    pose proof (Z.mul_div_le (sleep_time - 0 + 59) 60). lia.
  - rewrite length_slices. by rewrite Z.sub_0_r.
Qed.

(** Two and a half minutes: sleeps of 60, 60 and 30 seconds. *)
Lemma sleep_loop_sleeps_the_interval_witness :
  is_running (self (Process idle_agent [])) = true ∧
  sleeps (events (sleep_loop (S (Z.to_nat 150)) (λ _, None) 150 0 0
                    (Process idle_agent [])).2) = [60; 60; 30].
Proof.
  assert (H1 : ∀ k : nat, (λ _ : nat, @None interrupt) k = None) by done.
  assert (H2 : is_running (self (Process idle_agent [])) = true) by reflexivity.
  assert (H3 : 0 ≤ 150) by lia.
  destruct (sleep_loop_sleeps_the_interval (λ _, None) 150
              (Process idle_agent []) H1 H2 H3) as (naps & Hl & _).
  split; [exact H2|]. reflexivity.
Defined.









Lemma on_self_check w p :
  on_self (check_for_new_courses w) p =
    (Ok (cycle w (self p)).1, Process (cycle w (self p)).2 (events p)).
Proof. unfold on_self. by rewrite check_for_new_courses_eq. Qed.
















(** * Properties of the scraper's course dicts *)

Lemma append_nil (s : string) : "" +:+ s = s.
Proof. reflexivity. Qed.

Lemma append_cons (c : ascii) (a s : string) :
  String c a +:+ s = String c (a +:+ s).
Proof. reflexivity. Qed.

Lemma append_assoc (a b c : string) : (a +:+ b) +:+ c = a +:+ (b +:+ c).
Proof.
  induction a as [|x a IH]; [done|].
  change (String x ((a +:+ b) +:+ c) = String x (a +:+ (b +:+ c))).
  by rewrite IH.
Qed.

Lemma length_append (a b : string) :
  String.length (a +:+ b) = (String.length a + String.length b)%nat.
Proof.
  induction a as [|x a IH]; [done|].
  change (S (String.length (a +:+ b))
          = S (String.length a + String.length b)%nat).
  by rewrite IH.
Qed.

Lemma length_substring_0 n : ∀ s, (String.length (String.substring 0 n s) ≤ n)%nat.
Proof.
  induction n as [|n IH]; intros [|c s]; cbn; try lia.
  specialize (IH s). lia.
Qed.

Lemma split_on_nonempty sep s : split_on sep s ≠ [].
Proof.
  destruct s as [|c s]; cbn; [done|].
  destruct (decide (c = sep)); [done|]. by destruct (split_on sep s).
Qed.

Lemma split_on_no_sep sep s : occurs sep s = false → split_on sep s = [s].
Proof.
  induction s as [|c s IH]; cbn; [done|].
  intros H. apply orb_false_iff in H as [Hc Hs].
  apply bool_decide_eq_false in Hc.
  destruct (decide (c = sep)); [done|]. by rewrite (IH Hs).
Qed.

Lemma split_on_app sep a b :
  split_on sep (a +:+ String sep b) = split_on sep a ++ split_on sep b.
Proof.
  induction a as [|c a IH]; rewrite ?append_nil, ?append_cons; cbn [split_on].
  - by destruct (decide (sep = sep)).
  - destruct (decide (c = sep)); [by rewrite IH|].
    rewrite IH. pose proof (split_on_nonempty sep a).
    by destruct (split_on sep a).
Qed.

Lemma prefix_append pat : ∀ s,
  String.prefix pat s = true → ∃ b, s = pat +:+ b.
Proof.
  induction pat as [|x pat IH]; intros s H; [by exists s|].
  destruct s as [|y s]; cbn in H; [done|].
  destruct (Ascii.ascii_dec x y) as [->|]; [|done].
  destruct (IH s H) as [b ->]. by exists b.
Qed.

Lemma py_in_append pat : ∀ s,
  py_in pat s = true → ∃ a b, s = a +:+ pat +:+ b.
Proof.
  induction s as [|c s IH]; cbn [py_in]; intros H;
    apply orb_true_iff in H as [H|H]; try done.
  - apply prefix_append in H as [b ->]. by exists "", b.
  - apply prefix_append in H as [b ->]. by exists "", b.
  - destruct (IH H) as (a & b & ->). by exists (String c a), b.
Qed.

Lemma second_to_last_app {A} (l : list A) (x y : A) :
  second_to_last (l ++ [x; y]) = Some x.
Proof. unfold second_to_last. by rewrite rev_app_distr. Qed.

Lemma id_of_url_segments (a b c : string) :
  occurs "/" b = false → occurs "/" c = false →
  id_of_url (a +:+ String "/" (b +:+ String "/" c)) = Some b.
Proof.
  intros Hb Hc. unfold id_of_url.
  rewrite split_on_app, split_on_app, (split_on_no_sep _ _ Hb),
    (split_on_no_sep _ _ Hc).
  apply second_to_last_app.
Qed.

(** X21. The id of a course is the text between the last two slashes of
    its address: for an address that ends with the slug and a slash,
    followed or not by a query, it is the slug; for an address that ends
    with the slug itself it is the word [course], whatever the slug. *)
Theorem id_is_the_segment_before_the_last_slash (base slug query : string) :
  occurs "/" slug = false →
  occurs "/" query = false →
  id_of_url (base +:+ "/course/" +:+ slug +:+ "/" +:+ query) = Some slug ∧
  id_of_url (base +:+ "/course/" +:+ slug) = Some "course".
Proof.
  intros Hs Hq. split.
  - replace (base +:+ "/course/" +:+ slug +:+ "/" +:+ query)
      with ((base +:+ "/course") +:+ String "/" (slug +:+ String "/" query))
      by (by rewrite append_assoc).
    by apply id_of_url_segments.
  - change (base +:+ "/course/" +:+ slug)
      with (base +:+ String "/" ("course" +:+ String "/" slug)).
    by apply id_of_url_segments.
Qed.

Lemma id_is_the_segment_before_the_last_slash_witness :
  id_of_url "https://www.udemy.com/course/learn-python/?couponCode=FREE"
    = Some "learn-python" ∧
  id_of_url "https://www.udemy.com/course/learn-python" = Some "course".
Proof.
  assert (H1 : occurs "/" "learn-python" = false) by reflexivity.
  assert (H2 : occurs "/" "?couponCode=FREE" = false) by reflexivity.
  pose proof (id_is_the_segment_before_the_last_slash "https://www.udemy.com"
                "learn-python" "?couponCode=FREE" H1 H2) as H.
  exact H.
Defined.

Lemma id_of_url_course url :
  py_in "/course/" url = true → is_Some (id_of_url url).
Proof.
  intros H. apply py_in_append in H as (a & b & ->).
  change (a +:+ "/course/" +:+ b)
    with (a +:+ String "/" ("course" +:+ String "/" b)).
  unfold id_of_url. rewrite split_on_app, split_on_app. cbn [split_on].
  repeat (destruct (decide _); [discriminate|]). cbn.
  pose proof (split_on_nonempty "/" b).
  destruct (split_on "/" b) as [|x l] using rev_ind; [done|].
  unfold second_to_last.
  rewrite !rev_app_distr. cbn. rewrite rev_app_distr. cbn.
  destruct (rev l); cbn; by eexists.
Qed.

Lemma title_bound (t : string) :
  str_len (if nonempty t && bool_decide (100 < str_len t)
           then String.substring 0 100 t +:+ "..." else t) ≤ 103.
Proof.
  unfold str_len. case_bool_decide as H.
  - destruct t as [|c t]; [cbn in H; lia|]. cbn [nonempty andb].
    rewrite length_append.
    pose proof (length_substring_0 100 (String c t)).
    change (String.length "...") with 3%nat. lia.
  - rewrite andb_false_r. lia.
Qed.

(** X22. For a link whose address contains [/course/] and whose title
    can be read, [_extract_course_data] returns a dict: taking the
    second-to-last segment of the address never raises; the dict holds the
    address unchanged, the id is that segment, and the title has at most
    103 characters. *)
Theorem extract_course_data_returns_a_dict (c : card) (url t : string) :
  href c = Returns (Some url) →
  py_in "/course/" url = true →
  first_title c = Returns t →
  ∃ d,
    _extract_course_data c = Some d ∧
    course_url d = url ∧
    id_of_url url = Some (course_id d) ∧
    str_len (course_title d) ≤ 103.
Proof.
  intros Hh Hin Ht. unfold _extract_course_data. rewrite Hh, Hin, Ht.
  assert (Hne : nonempty url = true) by (by destruct url).
  rewrite Hne. cbn [negb orb].
  destruct (id_of_url_course url Hin) as [cid Hid]. rewrite Hid.
  eexists. split; [reflexivity|]. cbn [course_url course_id course_title].
  split; [done|]. split; [done|]. apply title_bound.
Qed.

Lemma extract_course_data_returns_a_dict_witness :
  _extract_course_data link_a
    = Some (Course "course" "Learn Python from scratch"
              "https://www.udemy.com/course/learn-python").
Proof.
  assert (H1 : href link_a
               = Returns (Some "https://www.udemy.com/course/learn-python"))
    by reflexivity.
  assert (H2 : py_in "/course/" "https://www.udemy.com/course/learn-python" = true)
    by reflexivity.
  assert (H3 : first_title link_a = Returns "Learn Python from scratch")
    by (vm_compute; reflexivity).
  destruct (extract_course_data_returns_a_dict link_a _ _ H1 H2 H3)
    as (d & Hd & _).
  vm_compute. reflexivity.
Defined.

Lemma open_link_id c d :
  open_link c → _extract_course_data c = Some d → course_id d = "course".
Proof.
  intros (base & slug & Hh & Hs). unfold _extract_course_data. rewrite Hh.
  destruct (negb _ || negb _); [done|].
  destruct (first_title c); [|done].
  change (base +:+ "/course/" +:+ slug)
    with (base +:+ String "/" ("course" +:+ String "/" slug)).
  rewrite id_of_url_segments by done.
  intros H. by inversion H.
Qed.

(** X23. Links whose address ends with the slug, without a slash, all
    get the id [course]: once the seen-set has an entry for [course], a
    call whose fetched list was built from such links reports none of
    them, whatever they are. *)
Theorem open_links_are_not_reported
    (w : world) (a a' : agent) (cards : list card) :
  Forall open_link cards →
  fetch w = Returns (Some (cards_to_courses cards)) →
  is_Some (seen_courses a !! "course") →
  check_for_new_courses w a = (Ok true, a') →
  (∀ d, d ∈ cards_to_courses cards → course_id d = "course") ∧
  notifications (effects a') = notifications (effects a).
Proof.
  intros Hcards Hf Hseen H.
  assert (Hid : ∀ d, d ∈ cards_to_courses cards → course_id d = "course").
  { intros d Hd. unfold cards_to_courses in Hd.
    apply list_elem_of_omap in Hd as (c & Hc & Hd).
    apply elem_of_take in Hc as (i & Hi & _).
    apply (open_link_id c d); [|done].
    eapply Forall_lookup_1; [exact Hcards | exact Hi]. }
  split; [exact Hid|].
  apply check_for_new_courses_completed in H
    as (s & fetched & news & cur & Hr & Hf' & Hs & ->).
  rewrite Hf in Hf'. inversion Hf'; subst fetched.
  change (default [] (Some (cards_to_courses cards)))
    with (cards_to_courses cards) in Hs.
  destruct (scan_result_facts _ _ _ _ _ Hs) as (-> & _).
  rewrite new_courses_of_nil.
  - unfold completed; cbn [effects].
    by rewrite notifications_app, notifications_completed, app_nil_r.
  - intros d Hd. by rewrite (Hid d Hd).
Qed.

(** Two such links, on an agent that has reported a first one. *)
Lemma open_links_are_not_reported_witness :
  Forall open_link [link_a; link_b] ∧
  (course_id <$> cards_to_courses [link_a; link_b]) = ["course"; "course"] ∧
  notifications
    (effects
       (check_for_new_courses (poll 2000 (cards_to_courses [link_a; link_b]) true)
          (check_for_new_courses (poll 1000 (cards_to_courses [link_a]) true)
             fresh_agent).2).2)
    = [cards_to_courses [link_a]].
Proof.
  set (a1 := (check_for_new_courses (poll 1000 (cards_to_courses [link_a]) true)
                fresh_agent).2).
  set (w := poll 2000 (cards_to_courses [link_a; link_b]) true).
  assert (H1 : Forall open_link [link_a; link_b]).
  { repeat constructor.
    - by exists "https://www.udemy.com", "learn-python".
    - by exists "https://www.udemy.com", "learn-rust". }
  assert (H2 : fetch w = Returns (Some (cards_to_courses [link_a; link_b])))
    by reflexivity.
  assert (H3 : is_Some (seen_courses a1 !! "course"))
    by (eexists; vm_compute; reflexivity).
  assert (H4 : check_for_new_courses w a1
               = (Ok true, (check_for_new_courses w a1).2))
    by (vm_compute; reflexivity).
  destruct (open_links_are_not_reported w a1 _ _ H1 H2 H3 H4) as (_ & Hn).
  split; [exact H1|]. split; [by vm_compute|].
  rewrite Hn. by vm_compute.
Defined.

(** * [run_once] *)

Lemma run_once_eq w p :
  run_once w p =
    (Ok (cycle w (self p)).1,
     Process (cycle w (self p)).2
       (events p ++ [Logged INFO MRunningSingle;
                     if (cycle w (self p)).1
                     then Logged INFO MSingleCompleted
                     else Logged ERROR MSingleFailed])).
Proof.
  unfold run_once. unfold op_bind at 1. unfold op_logger at 1, emit at 1.
  unfold op_bind at 1. rewrite on_self_check. cbn [self events].
  unfold op_bind, op_logger, emit, op_ret.
  destruct (cycle w (self p)).1; cbn [self events];
    by rewrite <- app_assoc.
Qed.

(** X24. [run_once] returns [True] and logs that the single check
    completed successfully also when the notification of the new courses
    was lost: the call it wraps has then counted an error and logged that
    the notification failed. *)
Theorem run_once_reports_success_when_the_mail_is_lost
    (w : world) (p : process) (batch : list course) :
  smtp_ok w = false →
  notifications (effects (check_for_new_courses w (self p)).2)
    = notifications (effects (self p)) ++ [batch] →
  ∃ p',
    run_once w p = (Ok true, p') ∧
    self p' = (check_for_new_courses w (self p)).2 ∧
    events p' =
      events p ++ [Logged INFO MRunningSingle; Logged INFO MSingleCompleted] ∧
    errors (health_status (self p')) = errors (health_status (self p)) + 1 ∧
    (ERROR, MNotifyFailed) ∈ log (self p').
Proof.
  intros Hsmtp Hn. rewrite run_once_eq.
  rewrite check_for_new_courses_eq in Hn |- *. cbn [snd] in *.
  unfold cycle in *.
  destruct (body_outcome w (self p)) as [[b|e] a1] eqn:E; cbn [fst snd] in *.
  - apply body_outcome_ok in E
      as (-> & s & fetched & news & cur & Hr & Hf & Hs & ->).
    eexists. split; [reflexivity|]. cbn [self events].
    split; [done|]. split; [done|].
    unfold completed in Hn; cbn [effects] in Hn.
    rewrite notifications_app, notifications_completed in Hn.
    apply app_inv_head in Hn.
    destruct news as [|c0 news]; [done|].
    split.
    + unfold completed, completed_health, undelivered; cbn.
      by rewrite Hsmtp.
    + unfold completed, completed_log; cbn [log]. rewrite Hsmtp.
      rewrite !elem_of_app, !elem_of_cons. naive_solver.
  - apply body_outcome_raise in E as ->.
    rewrite notifications_failed, notifications_interrupted in Hn.
    by apply app_singleton_inv in Hn.
Qed.

(** [b] is new and the notifier fails. *)
Lemma run_once_reports_success_when_the_mail_is_lost_witness :
  smtp_ok (poll 1000 [course_a; course_b] false) = false ∧
  (run_once (poll 1000 [course_a; course_b] false) (Process agent_a [])).1
    = Ok true ∧
  errors
    (health_status
       (self (run_once (poll 1000 [course_a; course_b] false)
                (Process agent_a [])).2)) = 1.
Proof.
  set (w := poll 1000 [course_a; course_b] false).
  assert (H1 : smtp_ok w = false) by reflexivity.
  assert (H2 : notifications
                 (effects (check_for_new_courses w (self (Process agent_a []))).2)
               = notifications (effects (self (Process agent_a [])))
                 ++ [[course_b]]) by (vm_compute; reflexivity).
  destruct (run_once_reports_success_when_the_mail_is_lost w
              (Process agent_a []) _ H1 H2) as (p' & Hr & _ & _ & He & _).
  rewrite Hr. cbn [fst snd]. rewrite He.
  split; [exact H1|]. split; reflexivity.
Defined.
